(** * ggicci/pg: pagination model and list-query orchestration

    A shallow embedding of the Go package [pg] (files [list.go], [exec.go]
    and the pagination file) together with the properties its design
    document states about it.

    Conventions.
    - Go's [int64] is a [Z] kept in the range [-2^63, 2^63); every
      arithmetic operation of the source is written with its wrap-around.
    - A method with a pointer receiver is a function from the receiver's
      state to the returned value and the new state.
    - [*OffsetPagination] pointers are locations of an explicit store, so
      that the copy taken by [WithOffsetPagination] and the in-place update
      done by [List] are visible. *)

From Stdlib Require Import ZArith Lia List Ascii String.
From stdpp Require Import base option list gmap strings pretty.

Local Open Scope Z_scope.

(** ** Machine integers *)

Module Int64.

Definition min_int : Z := - 2 ^ 63.
Definition max_int : Z := 2 ^ 63 - 1.

Definition in_range (z : Z) : Prop := min_int <= z <= max_int.

(** Two's complement wrap-around of a mathematical integer. *)
Definition wrap (z : Z) : Z := (z + 2 ^ 63) mod 2 ^ 64 - 2 ^ 63.

Definition add (a b : Z) : Z := wrap (a + b).
Definition sub (a b : Z) : Z := wrap (a - b).
Definition mul (a b : Z) : Z := wrap (a * b).

(** The conversion [uint64(x)] of an [int64]. *)
Definition to_uint64 (z : Z) : Z := z mod 2 ^ 64.

End Int64.

(** ** IEEE 754 binary64, as far as [normalize] uses it

    [normalize] evaluates
    [int64(math.Ceil(float64(p.CountRecords) / float64(p.PerPage)))]
    with a non-negative numerator and a positive denominator.  On that
    domain no value is an infinity, a NaN or a subnormal number.  The
    conversion of an integer gives a [float64] that holds an integer, which
    is represented by that integer; the quotient is a mantissa of 53 bits
    and a binary exponent.  Each operation rounds to nearest, ties to
    even. *)

Module Float64.

(** Nearest integer to [n / d] for [d > 0], ties to the even one. *)
Definition round_half_even (n d : Z) : Z :=
  let q := n / d in
  let r := n mod d in
  if 2 * r <? d then q
  else if d <? 2 * r then q + 1
  else if Z.even q then q else q + 1.

(** [float64(z)] for [z >= 0]: [z] rounded to 53 significant bits. *)
Definition of_int64 (z : Z) : Z :=
  let sh := Z.max 0 (Z.log2 z - 52) in
  round_half_even z (2 ^ sh) * 2 ^ sh.

(** A positive quotient, [mant * 2 ^ expo]. *)
Record t : Type := mk { mant : Z; expo : Z }.

(** [x / y] for positive [x] and [y]: the quotient is scaled into
    [2^52, 2^53) and rounded there. *)
Definition div (x y : Z) : t :=
  let k0 := Z.log2 x - Z.log2 y - 52 in
  let num k := x * 2 ^ Z.max 0 (- k) in
  let den k := y * 2 ^ Z.max 0 k in
  let k := if num k0 <? 2 ^ 52 * den k0 then k0 - 1 else k0 in
  mk (round_half_even (num k) (den k)) k.

(** [math.Ceil], as an integer. *)
Definition ceil (x : t) : Z :=
  if 0 <=? expo x then mant x * 2 ^ expo x
  else - ((- mant x) / 2 ^ (- expo x)).

(** [int64(f)] of an integral [f >= 0].  A value that does not fit is
    converted as amd64 does it, to the smallest [int64]. *)
Definition to_int64 (v : Z) : Z :=
  if v <? 2 ^ 63 then v else Int64.min_int.

(** [int64(math.Ceil(float64(a) / float64(b)))] for [0 <= a], [0 < b]. *)
Definition ceil_div (a b : Z) : Z :=
  if a =? 0 then 0
  else to_int64 (ceil (div (of_int64 a) (of_int64 b))).

End Float64.

(** ** Offset pagination *)

Record OffsetPagination : Type := mkOffsetPagination {
  Page : Z;
  PerPage : Z;
  CountPages : Z;
  CountRecords : Z;
  defaultPerPage : Z
}.

Definition with_Page (v : Z) (p : OffsetPagination) : OffsetPagination :=
  mkOffsetPagination v (PerPage p) (CountPages p) (CountRecords p) (defaultPerPage p).
Definition with_PerPage (v : Z) (p : OffsetPagination) : OffsetPagination :=
  mkOffsetPagination (Page p) v (CountPages p) (CountRecords p) (defaultPerPage p).
Definition with_CountPages (v : Z) (p : OffsetPagination) : OffsetPagination :=
  mkOffsetPagination (Page p) (PerPage p) v (CountRecords p) (defaultPerPage p).
Definition with_CountRecords (v : Z) (p : OffsetPagination) : OffsetPagination :=
  mkOffsetPagination (Page p) (PerPage p) (CountPages p) v (defaultPerPage p).
Definition with_defaultPerPage (v : Z) (p : OffsetPagination) : OffsetPagination :=
  mkOffsetPagination (Page p) (PerPage p) (CountPages p) (CountRecords p) v.

(** The fields are [int64]. *)
Definition int64_fields (p : OffsetPagination) : Prop :=
  Int64.in_range (Page p) /\ Int64.in_range (PerPage p) /\
  Int64.in_range (CountPages p) /\ Int64.in_range (CountRecords p) /\
  Int64.in_range (defaultPerPage p).

Definition normalize (p : OffsetPagination) : OffsetPagination :=
  let p := if defaultPerPage p <=? 0 then with_defaultPerPage 20 p else p in
  let p := if Page p <=? 0 then with_Page 1 p else p in
  let p := if PerPage p <=? 0 then with_PerPage (defaultPerPage p) p else p in
  let p := if CountRecords p <=? 0 then with_CountRecords 0 p else p in
  with_CountPages (Float64.ceil_div (CountRecords p) (PerPage p)) p.

Definition NewOffsetPagination (defaultPerPage : Z) : OffsetPagination :=
  normalize (mkOffsetPagination 0 0 0 0 defaultPerPage).

Definition SetDefaultPerPage (defaultPerPage0 : Z) (p : OffsetPagination)
  : Z * OffsetPagination :=
  let p := normalize (with_defaultPerPage defaultPerPage0 p) in
  (defaultPerPage p, p).

Definition Limit (p : OffsetPagination) : Z * OffsetPagination :=
  let p := normalize p in (PerPage p, p).

Definition Offset (p : OffsetPagination) : Z * OffsetPagination :=
  let p := normalize p in
  (Int64.mul (Int64.sub (Page p) 1) (PerPage p), p).

Definition CurrentPage (p : OffsetPagination) : Z * OffsetPagination :=
  let p := normalize p in (Page p, p).

Definition PageSize (p : OffsetPagination) : Z * OffsetPagination :=
  let p := normalize p in (PerPage p, p).

Definition SetCountRecords (total : Z) (p : OffsetPagination) : OffsetPagination :=
  normalize (with_CountRecords total p).

(** ** Seek pagination *)

Module Seek.

Record SeekPagination : Type := mkSeekPagination {
  limit : Z;
  cursor : string;
  defaultLimit : Z
}.

Definition NewSeekPagination (defaultLimit0 : Z) : SeekPagination :=
  let defaultLimit0 := if defaultLimit0 <=? 0 then 10 else defaultLimit0 in
  mkSeekPagination 0 EmptyString defaultLimit0.

Definition normalize (p : SeekPagination) : SeekPagination :=
  if limit p <=? 0 then mkSeekPagination (defaultLimit p) (cursor p) (defaultLimit p)
  else p.

Definition SetLimit (newLimit : Z) (p : SeekPagination) : Z * SeekPagination :=
  let p := normalize (mkSeekPagination newLimit (cursor p) (defaultLimit p)) in
  (limit p, p).

Definition Limit (p : SeekPagination) : Z := limit p.

Definition SetCursor (newCursor : string) (p : SeekPagination)
  : string * SeekPagination :=
  let p := mkSeekPagination (limit p) newCursor (defaultLimit p) in
  (cursor p, p).

Definition Cursor (p : SeekPagination) : string := cursor p.

End Seek.

(** ** Strings and errors *)

Local Open Scope string_scope.
Local Open Scope list_scope.
Local Open Scope Z_scope.

Definition dquote : string := String (ascii_of_nat 34) EmptyString.

(** [strings.Join]. *)
Fixpoint Join (elems : list string) (sep : string) : string :=
  match elems with
  | [] => EmptyString
  | [s] => s
  | s :: rest => s +:+ sep +:+ Join rest sep
  end.

(** [strconv.FormatInt(z, 10)]. *)
Definition FormatInt (z : Z) : string := pretty z.

(** A Go result [(v, err)]; an error is its message. *)
Inductive result (A : Type) : Type :=
| Ok (a : A)
| Err (msg : string).
Arguments Ok {A} a.
Arguments Err {A} msg.

Definition rbind {A B : Type} (r : result A) (k : A -> result B) : result B :=
  match r with
  | Ok a => k a
  | Err e => Err e
  end.

(** ** The statement builder *)

(** Modelled from the spec: the statement builder (the external package
    [github.com/Masterminds/squirrel], imported as [sq]) is not part of the
    sources.  Section 6 of the design document gives its interface: a
    select statement is composed of columns, FROM, JOIN, WHERE, GROUP BY,
    ORDER BY, LIMIT and OFFSET, it renders to a text and a list of
    positional arguments, and its projected columns can be replaced without
    touching the other clauses.  A clause part is anything that renders to
    a text and arguments or fails ([Sqlizer]); as in the package, a
    projected column is such a part too ([Column(column, args...)]). *)

Module sq.

(** A bound value, [interface{}] in the source. *)
Inductive arg : Type :=
| ArgInt (z : Z)
| ArgStr (s : string)
| ArgNull.

(** What [ToSql()] of a part returns. *)
Definition Sqlizer : Type := result (string * list arg).

Definition newPart (sql : string) (args : list arg) : Sqlizer := Ok (sql, args).

Inductive PlaceholderFormat : Type := Question | Dollar.

Record SelectBuilder : Type := mkSelect {
  sel_placeholder : PlaceholderFormat;
  sel_columns : list Sqlizer;
  sel_from : option Sqlizer;
  sel_joins : list Sqlizer;
  sel_where : list Sqlizer;
  sel_group_by : list string;
  sel_order_by : list Sqlizer;
  sel_limit : string;
  sel_offset : string
}.

Definition with_columns (c : list Sqlizer) (b : SelectBuilder) : SelectBuilder :=
  mkSelect (sel_placeholder b) c (sel_from b) (sel_joins b) (sel_where b)
           (sel_group_by b) (sel_order_by b) (sel_limit b) (sel_offset b).

(** [b.Columns(cols...)] appends plain columns. *)
Definition Columns (cols : list string) (b : SelectBuilder) : SelectBuilder :=
  with_columns (sel_columns b ++ map (fun c => newPart c []) cols) b.

(** [b.Column(col, args...)] appends one column with its arguments. *)
Definition Column (col : string) (args : list arg) (b : SelectBuilder) : SelectBuilder :=
  with_columns (sel_columns b ++ [newPart col args]) b.

(** [builder.Delete(b, "Columns")]. *)
Definition Delete_Columns (b : SelectBuilder) : SelectBuilder :=
  with_columns [] b.

Definition Where (pred : Sqlizer) (b : SelectBuilder) : SelectBuilder :=
  mkSelect (sel_placeholder b) (sel_columns b) (sel_from b) (sel_joins b)
           (sel_where b ++ [pred])
           (sel_group_by b) (sel_order_by b) (sel_limit b) (sel_offset b).

Definition OrderBy (orderBy : string) (b : SelectBuilder) : SelectBuilder :=
  mkSelect (sel_placeholder b) (sel_columns b) (sel_from b) (sel_joins b)
           (sel_where b) (sel_group_by b)
           (sel_order_by b ++ [newPart orderBy []])
           (sel_limit b) (sel_offset b).

(** [b.Limit(n)] and [b.Offset(n)] take a [uint64]. *)
Definition Limit (n : Z) (b : SelectBuilder) : SelectBuilder :=
  mkSelect (sel_placeholder b) (sel_columns b) (sel_from b) (sel_joins b)
           (sel_where b) (sel_group_by b) (sel_order_by b)
           (FormatInt n) (sel_offset b).

Definition Offset (n : Z) (b : SelectBuilder) : SelectBuilder :=
  mkSelect (sel_placeholder b) (sel_columns b) (sel_from b) (sel_joins b)
           (sel_where b) (sel_group_by b) (sel_order_by b)
           (sel_limit b) (FormatInt n).

Definition is_empty (s : string) : bool :=
  match s with EmptyString => true | _ => false end.

(** Renders the parts after the text and arguments collected so far; an
    empty part is skipped, a separator precedes every part but the one at
    index 0. *)
Fixpoint appendToSql (parts : list Sqlizer) (first : bool) (sep : string)
         (acc : string * list arg) : result (string * list arg) :=
  match parts with
  | [] => Ok acc
  | Err e :: _ => Err e
  | Ok (partSql, partArgs) :: rest =>
      if is_empty partSql then appendToSql rest false sep acc
      else
        let w := if first then fst acc else fst acc +:+ sep in
        appendToSql rest false sep (w +:+ partSql, snd acc ++ partArgs)
  end.

(** The clauses after the projection, each written after the text and
    arguments collected so far. *)
Definition writeFrom (b : SelectBuilder) (acc : string * list arg)
  : result (string * list arg) :=
  match sel_from b with
  | Some f => appendToSql [f] true EmptyString (fst acc +:+ " FROM ", snd acc)
  | None => Ok acc
  end.

Definition writeJoins (b : SelectBuilder) (acc : string * list arg)
  : result (string * list arg) :=
  match sel_joins b with
  | [] => Ok acc
  | js => appendToSql js true " " (fst acc +:+ " ", snd acc)
  end.

Definition writeWhere (b : SelectBuilder) (acc : string * list arg)
  : result (string * list arg) :=
  match sel_where b with
  | [] => Ok acc
  | ws => appendToSql ws true " AND " (fst acc +:+ " WHERE ", snd acc)
  end.

Definition writeGroupBy (b : SelectBuilder) (acc : string * list arg)
  : result (string * list arg) :=
  match sel_group_by b with
  | [] => Ok acc
  | gs => Ok (fst acc +:+ " GROUP BY " +:+ Join gs ", ", snd acc)
  end.

Definition writeOrderBy (b : SelectBuilder) (acc : string * list arg)
  : result (string * list arg) :=
  match sel_order_by b with
  | [] => Ok acc
  | os => appendToSql os true ", " (fst acc +:+ " ORDER BY ", snd acc)
  end.

Definition writeLimit (b : SelectBuilder) (acc : string * list arg)
  : result (string * list arg) :=
  if is_empty (sel_limit b) then Ok acc
  else Ok (fst acc +:+ " LIMIT " +:+ sel_limit b, snd acc).

Definition writeOffset (b : SelectBuilder) (acc : string * list arg)
  : result (string * list arg) :=
  if is_empty (sel_offset b) then Ok acc
  else Ok (fst acc +:+ " OFFSET " +:+ sel_offset b, snd acc).

Definition renderTail (b : SelectBuilder) (acc : string * list arg)
  : result (string * list arg) :=
  rbind (writeFrom b acc) (fun acc =>
  rbind (writeJoins b acc) (fun acc =>
  rbind (writeWhere b acc) (fun acc =>
  rbind (writeGroupBy b acc) (fun acc =>
  rbind (writeOrderBy b acc) (fun acc =>
  rbind (writeLimit b acc) (writeOffset b)))))).

Definition toSqlRaw (b : SelectBuilder) : result (string * list arg) :=
  match sel_columns b with
  | [] => Err "select statements must have at least one result column"
  | cols =>
      rbind (appendToSql cols true ", " ("SELECT ", [])) (renderTail b)
  end.

(** [Dollar] numbers the placeholders, [??] is an escaped question mark. *)
Fixpoint replacePositional (prefix : string) (i : Z) (sql : string) : string :=
  match sql with
  | EmptyString => EmptyString
  | String c rest =>
      if Ascii.eqb c "?" then
        match rest with
        | String c' rest' =>
            if Ascii.eqb c' "?" then String "?" (replacePositional prefix i rest')
            else prefix +:+ FormatInt (i + 1)
                 +:+ replacePositional prefix (i + 1) rest
        | EmptyString => prefix +:+ FormatInt (i + 1)
        end
      else String c (replacePositional prefix i rest)
  end.

Definition ReplacePlaceholders (f : PlaceholderFormat) (sql : string) : string :=
  match f with
  | Question => sql
  | Dollar => replacePositional "$" 0 sql
  end.

Definition ToSql (b : SelectBuilder) : result (string * list arg) :=
  rbind (toSqlRaw b) (fun r =>
  Ok (ReplacePlaceholders (sel_placeholder b) (fst r), snd r)).

End sq.

(** ** Query strings *)

(** Modelled from the spec: the request URL and its query values belong to
    Go's [net/url], which is not part of the sources.  The design document
    says that a link is built from the request URL's path and query with
    [page] rewritten.  A URL is represented by its path and its parsed
    query; [Encode] lists the pairs by sorted key, escaped. *)

Module url.

Record URL : Type := mkURL {
  Path : string;
  parsedQuery : gmap string (list string)
}.

(** [u.Query()]. *)
Definition Query (u : URL) : gmap string (list string) := parsedQuery u.

(** [v.Set(key, value)]. *)
Definition Values_Set (key value : string) (v : gmap string (list string))
  : gmap string (list string) :=
  <[key := [value]]> v.

Definition hexDigit (n : N) : ascii :=
  if (n <? 10)%N then ascii_of_N (48 + n) else ascii_of_N (55 + n).

Definition unreserved (c : ascii) : bool :=
  let n := N_of_ascii c in
  ((97 <=? n) && (n <=? 122) || (65 <=? n) && (n <=? 90)
   || (48 <=? n) && (n <=? 57)
   || (n =? 45) || (n =? 95) || (n =? 46) || (n =? 126))%N.

(** [url.QueryEscape]. *)
Fixpoint QueryEscape (s : string) : string :=
  match s with
  | EmptyString => EmptyString
  | String c rest =>
      if unreserved c then String c (QueryEscape rest)
      else if Ascii.eqb c " " then String "+" (QueryEscape rest)
      else String "%" (String (hexDigit (N_of_ascii c / 16))
                      (String (hexDigit (N_of_ascii c mod 16)) (QueryEscape rest)))
  end.

Fixpoint insertKey (kv : string * list string) (l : list (string * list string))
  : list (string * list string) :=
  match l with
  | [] => [kv]
  | kv' :: rest =>
      if String.leb (fst kv) (fst kv') then kv :: l else kv' :: insertKey kv rest
  end.

Definition sortKeys (l : list (string * list string)) : list (string * list string) :=
  foldr insertKey [] l.

(** The pairs [key=value] that [Encode] writes, in its order. *)
Definition encodePairs (v : gmap string (list string)) : list string :=
  flat_map (fun kv : string * list string =>
              map (fun x => QueryEscape (fst kv) +:+ "=" +:+ QueryEscape x) (snd kv))
           (sortKeys (map_to_list v)).

(** [v.Encode()]. *)
Definition Encode (v : gmap string (list string)) : string :=
  Join (encodePairs v) "&".

Fixpoint allUnreserved (s : string) : bool :=
  match s with
  | EmptyString => true
  | String c rest => unreserved c && allUnreserved rest
  end.

End url.

(** ** Headers of the offset pagination *)

(** [fmt.Sprintf] of the pattern [<%s?%s>; rel="..."]. *)
Definition linkEntry (path enc rel : string) : string :=
  "<" +:+ path +:+ "?" +:+ enc +:+ ">; rel=" +:+ dquote +:+ rel +:+ dquote.

(** The slice [linkHeaders] that [LinkHeader] joins. *)
Definition linkHeaders (p : OffsetPagination) (theURL : url.URL) : list string :=
  let acc : list string := [] in
  let firstLink := url.Values_Set "page" "1" (url.Query theURL) in
  let acc := acc ++ [linkEntry (url.Path theURL) (url.Encode firstLink) "first"] in
  let acc :=
    if 1 <? Page p then
      let prevLink :=
        url.Values_Set "page" (FormatInt (Int64.sub (Page p) 1)) (url.Query theURL) in
      acc ++ [linkEntry (url.Path theURL) (url.Encode prevLink) "prev"]
    else acc in
  let acc :=
    if Int64.add (Page p) 1 <? CountPages p then
      let nextLink :=
        url.Values_Set "page" (FormatInt (Int64.add (Page p) 1)) (url.Query theURL) in
      acc ++ [linkEntry (url.Path theURL) (url.Encode nextLink) "next"]
    else acc in
  let lastLink := url.Values_Set "page" (FormatInt (CountPages p)) (url.Query theURL) in
  acc ++ [linkEntry (url.Path theURL) (url.Encode lastLink) "last"].

Definition LinkHeader (p : OffsetPagination) (theURL : url.URL) : string :=
  Join (linkHeaders p theURL) ", ".

Definition XPaginationHeader (p : OffsetPagination) : string :=
  Join [FormatInt (Page p); FormatInt (PerPage p);
        FormatInt (CountPages p); FormatInt (CountRecords p)] ",".

(** ** List options *)

(** A [*OffsetPagination] is a location of the store. *)
Definition loc : Type := positive.

(** The implementations of the interface [ListOption].  [ListOptionFunc]
    stands for every implementation that is neither of the two structs: the
    type switches of the source cannot tell such implementations apart. *)
Inductive ListOption : Type :=
| ListOptionFunc (f : sq.SelectBuilder -> sq.SelectBuilder)
| withSortByOption (columnName direction : string)
| withOffsetPaginationOption (page : loc).

(** [new(OffsetPagination)] followed by an assignment. *)
Definition alloc (p : OffsetPagination) (h : gmap loc OffsetPagination)
  : loc * gmap loc OffsetPagination :=
  let l := fresh (dom h) in (l, <[l := p]> h).

Definition WithSortBy (columnName direction : string) : ListOption :=
  withSortByOption columnName direction.

(** [WithOffsetPagination(pagination)]: [None] is the panic of a nil or
    dangling pointer. *)
Definition WithOffsetPagination (pagination : loc) (h : gmap loc OffsetPagination)
  : option (ListOption * gmap loc OffsetPagination) :=
  p ← h !! pagination;
  let '(page, h) := alloc p h in
  Some (withOffsetPaginationOption page, h).

Definition Apply (o : ListOption) (sb : sq.SelectBuilder) (h : gmap loc OffsetPagination)
  : option (sq.SelectBuilder * gmap loc OffsetPagination) :=
  match o with
  | ListOptionFunc f => Some (f sb, h)
  | withSortByOption columnName direction =>
      Some (sq.OrderBy (columnName +:+ " " +:+ direction) sb, h)
  | withOffsetPaginationOption page =>
      p ← h !! page;
      let '(lim, p) := Limit p in
      let sb := sq.Limit (Int64.to_uint64 lim) sb in
      let '(off, p) := Offset p in
      Some (sq.Offset (Int64.to_uint64 off) sb, <[page := p]> h)
  end.

Definition IsPaginationOption (opt : ListOption) : bool :=
  match opt with withOffsetPaginationOption _ => true | _ => false end.

Definition IsSortingOption (opt : ListOption) : bool :=
  match opt with withSortByOption _ _ => true | _ => false end.

(** The loop of [CategorizedListOptions], from the slices built so far. *)
Fixpoint categorize (opts filtering paging sorting : list ListOption)
  : list ListOption * list ListOption * list ListOption :=
  match opts with
  | [] => (filtering, paging, sorting)
  | opt :: rest =>
      if IsPaginationOption opt then categorize rest filtering (paging ++ [opt]) sorting
      else if IsSortingOption opt then categorize rest filtering paging (sorting ++ [opt])
      else categorize rest (filtering ++ [opt]) paging sorting
  end.

Definition CategorizedListOptions (opts : list ListOption)
  : list ListOption * list ListOption * list ListOption :=
  categorize opts [] [] [].

(** ** The list query *)

Definition toCountQuery (query : sq.SelectBuilder) : sq.SelectBuilder :=
  let countQuery := sq.Delete_Columns query in
  let countQuery := sq.Columns ["COUNT(*)"] countQuery in
  countQuery.

(** The execution engine and the row mapper: [QueryRowScan] is
    [DB().QueryRow(ctx, sql, args...).Scan(&total)], [Select] is
    [pgxscan.Select(ctx, DB(), &vs, sql, args...)], which returns the
    destination as it left it and the error, if any. *)
Record Engine (T : Type) : Type := mkEngine {
  QueryRowScan : string -> list sq.arg -> result Z;
  Select : T -> string -> list sq.arg -> T * option string
}.
Arguments QueryRowScan {T} _ _ _.
Arguments Select {T} _ _ _ _.

(** What [List] does that can be observed from outside: a statement is
    assembled, a query is run. *)
Inductive event : Type :=
| EvAssemble (query : sq.SelectBuilder)
| EvQueryRow (sql : string) (args : list sq.arg)
| EvSelect (sql : string) (args : list sq.arg).

Record ListResult (T : Type) : Type := mkListResult {
  res_vs : T;
  res_pagination : option loc;
  res_err : option string;
  res_store : gmap loc OffsetPagination;
  res_trace : list event
}.
Arguments mkListResult {T} _ _ _ _ _.
Arguments res_vs {T} _.
Arguments res_pagination {T} _.
Arguments res_err {T} _.
Arguments res_store {T} _.
Arguments res_trace {T} _.

(** [for _, opt := range opts { query = opt.Apply(query) }]. *)
Fixpoint applyAll (opts : list ListOption) (query : sq.SelectBuilder)
         (h : gmap loc OffsetPagination)
  : option (sq.SelectBuilder * gmap loc OffsetPagination) :=
  match opts with
  | [] => Some (query, h)
  | opt :: rest => '(query, h) ← Apply opt query h; applyAll rest query h
  end.

(** [List]; [None] is a panic. *)
Definition List {T : Type} (db : Engine T) (vs : T) (query : sq.SelectBuilder)
           (opts : list ListOption) (h : gmap loc OffsetPagination)
  : option (ListResult T) :=
  let '(filteringOpts, pagingOpts, sortingOpts) := CategorizedListOptions opts in
  '(pagingOpts, h) ←
    (if (length pagingOpts =? 0)%nat then
       let '(p0, h) := alloc (NewOffsetPagination 20) h in
       '(o, h) ← WithOffsetPagination p0 h;
       Some ([o], h)
     else Some (pagingOpts, h));
  if (1 <? length pagingOpts)%nat then
    Some (mkListResult vs None (Some "only one pagination option is allowed") h [])
  else
    pagination ← match pagingOpts with
                 | withOffsetPaginationOption page :: _ => Some page
                 | _ => None
                 end;
    '(query, h) ← applyAll filteringOpts query h;
    let countQuery := toCountQuery query in
    match sq.ToSql countQuery with
    | Err e =>
        Some (mkListResult vs None (Some ("assemble count query: " +:+ e)) h
                           [EvAssemble countQuery])
    | Ok (sqlstr, args) =>
        match QueryRowScan db sqlstr args with
        | Err e =>
            Some (mkListResult vs None (Some ("count records: " +:+ e)) h
                               [EvAssemble countQuery; EvQueryRow sqlstr args])
        | Ok total =>
            p ← h !! pagination;
            let p := SetCountRecords total p in
            let h := <[pagination := p]> h in
            if (CountRecords p =? 0) || (CountPages p <? Page p) then
              Some (mkListResult vs (Some pagination) None h
                                 [EvAssemble countQuery; EvQueryRow sqlstr args])
            else
              '(query, h) ← applyAll sortingOpts query h;
              '(query, h) ← applyAll pagingOpts query h;
              match sq.ToSql query with
              | Err e =>
                  Some (mkListResult vs None (Some ("assemble query: " +:+ e)) h
                                     [EvAssemble countQuery; EvQueryRow sqlstr args;
                                      EvAssemble query])
              | Ok (sqlstr', args') =>
                  let '(vs, err) := Select db vs sqlstr' args' in
                  Some (mkListResult vs (Some pagination) err h
                                     [EvAssemble countQuery; EvQueryRow sqlstr args;
                                      EvAssemble query; EvSelect sqlstr' args'])
              end
        end
    end.

(** ** The other headers *)

(** [OffsetPagination.String]. *)
Definition OffsetPagination_String (p : OffsetPagination) : string :=
  "OffsetPagination#" +:+ XPaginationHeader p.

(** [SeekPagination.LinkHeader]. *)
Definition Seek_LinkHeader (p : Seek.SeekPagination) (theURL : url.URL) : string :=
  let acc : list string := [] in
  let nextLink := url.Query theURL in
  let nextLink := url.Values_Set "limit" (FormatInt (Seek.Limit p)) nextLink in
  let nextLink := url.Values_Set "cursor" (Seek.Cursor p) nextLink in
  let acc := acc ++ [linkEntry (url.Path theURL) (url.Encode nextLink) "next"] in
  Join acc ", ".

(** [SeekPagination.XPaginationHeader]. *)
Definition Seek_XPaginationHeader (p : Seek.SeekPagination) : string :=
  Join [Seek.Cursor p; FormatInt (Seek.Limit p)] ",".

(** ** Filters *)

(** Modelled from the spec: the predicates [sq.Eq], [sq.NotEq], [sq.Or] and
    [sq.And] of the statement builder, which [With] and [Without] build,
    are not part of the sources.  The design document names them: a WHERE
    predicate is a tree of equalities and inequalities composed with OR
    and AND, one value gives an equality and several values a disjunction.
    As for every part, a predicate is represented by what its [ToSql]
    returns, as the package renders it.  A value is a scalar or a slice of
    scalars; [sq.ArgNull] is [nil]. *)

Module expr.

Inductive value : Type :=
| Scalar (a : sq.arg)
| Slice (l : list sq.arg).

(** [Placeholders(count)]. *)
Definition Placeholders (count : nat) : string := Join (repeat "?" count) ",".

(** [Eq{key: val}.ToSql()], and [NotEq{key: val}.ToSql()] with
    [useNotOpr]. *)
Definition eqToSql (useNotOpr : bool) (key : string) (val : value) : sq.Sqlizer :=
  let equalOpr := if useNotOpr then "<>" else "=" in
  let inOpr := if useNotOpr then "NOT IN" else "IN" in
  let nullOpr := if useNotOpr then "IS NOT" else "IS" in
  let inEmptyExpr := if useNotOpr then "(1=1)" else "(1=0)" in
  match val with
  | Scalar sq.ArgNull => Ok (key +:+ " " +:+ nullOpr +:+ " NULL", [])
  | Scalar a => Ok (key +:+ " " +:+ equalOpr +:+ " ?", [a])
  | Slice [] => Ok (inEmptyExpr, [])
  | Slice l =>
      Ok (key +:+ " " +:+ inOpr +:+ " (" +:+ Placeholders (length l) +:+ ")", l)
  end.

Definition Eq (key : string) (val : value) : sq.Sqlizer := eqToSql false key val.
Definition NotEq (key : string) (val : value) : sq.Sqlizer := eqToSql true key val.

(** The loop of [conj.join]: the texts and arguments of the parts that are
    not empty. *)
Fixpoint joinParts (c : list sq.Sqlizer) (sqlParts : list string) (args : list sq.arg)
  : result (list string * list sq.arg) :=
  match c with
  | [] => Ok (sqlParts, args)
  | Err e :: _ => Err e
  | Ok (partSQL, partArgs) :: rest =>
      if sq.is_empty partSQL then joinParts rest sqlParts args
      else joinParts rest (sqlParts ++ [partSQL]) (args ++ partArgs)
  end.

Definition conj_join (sep defaultExpr : string) (c : list sq.Sqlizer) : sq.Sqlizer :=
  match c with
  | [] => Ok (defaultExpr, [])
  | _ =>
      rbind (joinParts c [] []) (fun r =>
      match fst r with
      | [] => Ok (EmptyString, snd r)
      | sqlParts => Ok ("(" +:+ Join sqlParts sep +:+ ")", snd r)
      end)
  end.

(** [Or(c).ToSql()] and [And(c).ToSql()]. *)
Definition Or (c : list sq.Sqlizer) : sq.Sqlizer := conj_join " OR " "(1=0)" c.
Definition And (c : list sq.Sqlizer) : sq.Sqlizer := conj_join " AND " "(1=1)" c.

End expr.

(** [With(columnName, value...)], for values that are scalars. *)
Definition With (columnName : string) (value : list sq.arg) : ListOption :=
  ListOptionFunc (fun sb =>
    match value with
    | [] => sb
    | [_] => sq.Where (expr.Eq columnName (expr.Slice value)) sb
    | _ =>
        let cond := map (fun item => expr.Eq columnName (expr.Scalar item)) value in
        sq.Where (expr.Or cond) sb
    end).

(** [Without(columnName, value...)], for values that are scalars. *)
Definition Without (columnName : string) (value : list sq.arg) : ListOption :=
  ListOptionFunc (fun sb =>
    match value with
    | [] => sb
    | [_] => sq.Where (expr.NotEq columnName (expr.Slice value)) sb
    | _ =>
        let cond := map (fun item => expr.NotEq columnName (expr.Scalar item)) value in
        sq.Where (expr.And cond) sb
    end).

(** ** Single rows and writes *)

(** [PassNotFoundError(v, err)].  A pointer is [None] when it is nil, an
    error is its message, and [notFound] is [pgxscan.NotFound]. *)
Definition PassNotFoundError {T : Type} (notFound : string -> bool)
           (v : option T) (err : option string) : option T * option string :=
  match err with
  | None => (v, err)
  | Some e => if notFound e then (None, None) else (v, err)
  end.

(** [ReturnsNilWhenNotFound(v, err)]. *)
Definition ReturnsNilWhenNotFound {T : Type} (notFound : string -> bool)
           (v : option T) (err : option string) : option T * option string :=
  match err with
  | None => (v, err)
  | Some e => if notFound e then (None, None) else (v, err)
  end.

(** [Get(ctx, v, query)] for a pointer [v] that is not nil; [scanGet] is
    [pgxscan.Get(ctx, DB(), v, sql, args...)], which returns what it left
    in [*v] and the error, if any. *)
Definition Get {T : Type} (notFound : string -> bool)
           (scanGet : T -> string -> list sq.arg -> T * option string)
           (v : T) (query : sq.SelectBuilder) : option T * option string :=
  match sq.ToSql query with
  | Err e => (None, Some e)
  | Ok (sqlstr, args) =>
      let '(v, err) := scanGet v sqlstr args in
      PassNotFoundError notFound (Some v) err
  end.

(** [Exec(ctx, query)]; [dbExec] is [DB().Exec(ctx, sql, args...)] followed
    by [RowsAffected()]. *)
Definition Exec (dbExec : string -> list sq.arg -> result Z) (query : sq.Sqlizer)
  : Z * option string :=
  match query with
  | Err e => (0, Some e)
  | Ok (sqlstr, args) =>
      match dbExec sqlstr args with
      | Err e => (0, Some e)
      | Ok rowsAffected => (rowsAffected, None)
      end
  end.

(** ** Vocabulary of the statements *)

(** The options that are neither paging nor sorting options. *)
Definition isFiltering (opt : ListOption) : bool :=
  negb (IsPaginationOption opt) && negb (IsSortingOption opt).

(** The statement that [Apply] returns for an option that is not a paging
    option; such an option does not read the store. *)
Definition applyPure (query : sq.SelectBuilder) (opt : ListOption) : sq.SelectBuilder :=
  match opt with
  | ListOptionFunc f => f query
  | withSortByOption columnName direction =>
      sq.OrderBy (columnName +:+ " " +:+ direction) query
  | withOffsetPaginationOption _ => query
  end.

(** Every paging option of the list points into the store. *)
Definition options_allocated (opts : list ListOption) (h : gmap loc OffsetPagination)
  : Prop :=
  forall page, In (withOffsetPaginationOption page) opts -> is_Some (h !! page).

(** [r] written after the text [s] and the arguments [a]. *)
Definition prepend (s : string) (a : list sq.arg) (r : string * list sq.arg)
  : result (string * list sq.arg) :=
  Ok (s +:+ fst r, a ++ snd r).

(** A writer that only appends to what was collected so far. *)
Definition appends (F : string * list sq.arg -> result (string * list sq.arg)) : Prop :=
  forall s a, F (s, a) = rbind (F (EmptyString, [])) (prepend s a).

(** A part that binds no argument. *)
Definition bindsNoArgs (c : sq.Sqlizer) : Prop := exists sql, c = Ok (sql, []).

(** The end of an entry that carries the relation [rel]. *)
Definition relSuffix (rel : string) : string := "rel=" +:+ dquote +:+ rel +:+ dquote.

(** The entry carries the relation [rel]. *)
Definition hasRel (rel entry : string) : Prop :=
  exists pre, entry = pre +:+ relSuffix rel.

(** The entry that [LinkHeader] writes for a page number and a relation. *)
Definition pageEntry (theURL : url.URL) (page : Z) (rel : string) : string :=
  linkEntry (url.Path theURL)
            (url.Encode (url.Values_Set "page" (FormatInt page) (url.Query theURL)))
            rel.

(** The text of a link, character by character: the path, a question mark
    and the pairs joined by [&] between angle brackets, then the relation
    between quotes. *)
Definition linkText (path : string) (pairs : list string) (rel : string) : string :=
  "<" +:+ path +:+ "?" +:+ Join pairs "&" +:+ ">; rel=" +:+ dquote +:+ rel +:+ dquote.

(** The pair, escaped, of a value of a parameter of the request URL whose
    key is not among [keys]. *)
Definition otherPair (theURL : url.URL) (keys : list string) (pair : string) : Prop :=
  exists (k x : string) (vs : list string),
    ~ In k keys /\ url.Query theURL !! k = Some vs /\ In x vs /\
    pair = url.QueryEscape k +:+ "=" +:+ url.QueryEscape x.

(** The entry is the text of a link of the relation [rel] to the page
    [page]: it is on the path of the request URL, and its query holds the
    pair of [page] and the page number in decimal, the pairs of the other
    parameters of the request URL, and no other pair. *)
Definition pageLink (theURL : url.URL) (page : Z) (rel entry : string) : Prop :=
  exists pairs : list string,
    entry = linkText (url.Path theURL) pairs rel /\
    In ("page=" +:+ FormatInt page) pairs /\
    (forall pair, In pair pairs ->
                  pair = "page=" +:+ FormatInt page \/ otherPair theURL ["page"] pair) /\
    (forall pair, otherPair theURL ["page"] pair -> In pair pairs).

(** The value is not [nil]. *)
Definition notNull (a : sq.arg) : bool :=
  match a with sq.ArgNull => false | _ => true end.

(** The text of the comparison of a column with one scalar. *)
Definition scalarText (useNotOpr : bool) (key : string) (a : sq.arg) : string :=
  if notNull a then key +:+ " " +:+ (if useNotOpr then "<>" else "=") +:+ " ?"
  else key +:+ " " +:+ (if useNotOpr then "IS NOT" else "IS") +:+ " NULL".

(** ** Sample inputs *)

Definition scenario_query : sq.SelectBuilder :=
  sq.mkSelect sq.Dollar [sq.newPart "*" []] (Some (sq.newPart "users" []))
              [] [] [] [] EmptyString EmptyString.

Definition scenario_engine : Engine (list Z) :=
  mkEngine (list Z) (fun _ _ => Ok 45) (fun _ _ _ => ([1; 2; 3], None)).

Definition empty_engine : Engine (list Z) :=
  mkEngine (list Z) (fun _ _ => Ok 0) (fun _ _ _ => ([1; 2; 3], None)).

(** Requested page 10 with 45 records and a page size of 20: three pages,
    so the call stops after the count. *)
Definition scenarioC_store : gmap loc OffsetPagination :=
  {[ 1%positive := mkOffsetPagination 10 20 0 0 20 ]}.

(** A caller-supplied function that adds a predicate: the count is the one
    of the filtered statement. *)
Definition filter_engine : Engine (list Z) :=
  mkEngine (list Z)
    (fun sql _ => if String.eqb sql "SELECT COUNT(*) FROM users" then Ok 45 else Ok 7)
    (fun _ _ _ => ([1; 2; 3], None)).

Definition filter_options : list ListOption :=
  [WithSortBy "id" "desc";
   ListOptionFunc (sq.Where (sq.newPart "age > ?" [sq.ArgInt 3]))].

(** A statement whose projection binds an argument. *)
Definition projection_with_argument : sq.SelectBuilder :=
  sq.Where (sq.newPart "age > ?" [sq.ArgInt 3])
    (sq.Column "price > ? AS costly" [sq.ArgInt 100]
       (sq.mkSelect sq.Question [] (Some (sq.newPart "items" [])) [] [] [] []
                    EmptyString EmptyString)).

Definition users_url : url.URL :=
  url.mkURL "/users" {[ "q" := ["a b"]; "page" := ["7"] ]}.

(** An engine whose count fails. *)
Definition failing_engine : Engine (list Z) :=
  mkEngine (list Z) (fun _ _ => Err "connection refused") (fun _ _ _ => ([1; 2; 3], None)).

(** A statement without projected column. *)
Definition no_column_query : sq.SelectBuilder :=
  sq.mkSelect sq.Dollar [] (Some (sq.newPart "users" [])) [] [] [] []
              EmptyString EmptyString.

(** Page 2 of a pagination of 20 per page. *)
Definition page2_store : gmap loc OffsetPagination :=
  {[ 1%positive := mkOffsetPagination 2 20 0 0 20 ]}.

(** A not-found test on messages, for the examples: [pgxscan.NotFound]
    holds of [pgx.ErrNoRows] and of the errors that wrap it, as the row
    mapper's "scanning one: no rows in result set"; their messages end
    with the message of [pgx.ErrNoRows]. *)
Definition isNoRows (e : string) : bool :=
  let msg := "no rows in result set" in
  String.eqb (String.substring (String.length e - String.length msg)
                               (String.length msg) e) msg.

(** A count of records one above 2^53, with a page size of 1. *)
Definition huge_count : OffsetPagination :=
  mkOffsetPagination 1 1 0 9007199254740993 20.

(** * Properties *)

(** ** Machine integers *)

(** Unfolds the bounds of [int64] everywhere. *)
Ltac int64_bounds :=
  unfold int64_fields, Int64.in_range, Int64.min_int, Int64.max_int in *.

Lemma wrap_in_range (z : Z) : Int64.in_range z -> Int64.wrap z = z.
Proof.
  unfold Int64.wrap. int64_bounds. intros H.
  rewrite Z.mod_small by lia. lia.
Qed.

(** ** Normalization of the offset pagination *)

Lemma normalize_defaultPerPage_pos (p : OffsetPagination) :
  0 < defaultPerPage (normalize p).
Proof.
  unfold normalize. destruct p as [pg pp cp cr d]. simpl.
  repeat (case_match; simpl in * ); lia.
Qed.

Lemma normalize_Page_pos (p : OffsetPagination) : 1 <= Page (normalize p).
Proof.
  unfold normalize. destruct p as [pg pp cp cr d]. simpl.
  repeat (case_match; simpl in * ); lia.
Qed.

Lemma normalize_PerPage_pos (p : OffsetPagination) : 1 <= PerPage (normalize p).
Proof.
  unfold normalize. destruct p as [pg pp cp cr d]. simpl.
  repeat (case_match; simpl in * ); lia.
Qed.

Lemma normalize_CountRecords (p : OffsetPagination) :
  CountRecords (normalize p) = Z.max 0 (CountRecords p).
Proof.
  unfold normalize. destruct p as [pg pp cp cr d]. simpl.
  repeat (case_match; simpl in * ); lia.
Qed.

Lemma normalize_CountPages (p : OffsetPagination) :
  CountPages (normalize p)
  = Float64.ceil_div (CountRecords (normalize p)) (PerPage (normalize p)).
Proof.
  unfold normalize. destruct p as [pg pp cp cr d]. simpl.
  repeat (case_match; simpl in * ); reflexivity.
Qed.

Lemma normalize_idempotent (p : OffsetPagination) :
  normalize (normalize p) = normalize p.
Proof.
  pose proof (normalize_defaultPerPage_pos p) as Hd.
  pose proof (normalize_Page_pos p) as Hp.
  pose proof (normalize_PerPage_pos p) as Hs.
  pose proof (normalize_CountRecords p) as Hr.
  pose proof (normalize_CountPages p) as Hc.
  destruct (normalize p) as [pg pp cp cr d]. simpl in *.
  unfold normalize. simpl.
  replace (d <=? 0) with false by lia. simpl.
  replace (pg <=? 0) with false by lia. simpl.
  replace (pp <=? 0) with false by lia. simpl.
  destruct (Z.leb_spec cr 0) as [Hle | Hlt]; simpl.
  - assert (cr = 0) by lia. subst cr. unfold with_CountPages; simpl. congruence.
  - unfold with_CountPages; simpl. congruence.
Qed.

(** C8. Calling an accessor of the offset pagination twice, with no
    mutation in between, returns the same value both times and leaves the
    same state: normalization applied to a normalized state changes
    nothing.  This holds for [Limit], [Offset], [CurrentPage] and
    [PageSize], from every state. *)
Theorem accessors_idempotent (p : OffsetPagination) :
  normalize (normalize p) = normalize p /\
  (fst (Limit (snd (Limit p))) = fst (Limit p)
   /\ snd (Limit (snd (Limit p))) = snd (Limit p)) /\
  (fst (Offset (snd (Offset p))) = fst (Offset p)
   /\ snd (Offset (snd (Offset p))) = snd (Offset p)) /\
  (fst (CurrentPage (snd (CurrentPage p))) = fst (CurrentPage p)
   /\ snd (CurrentPage (snd (CurrentPage p))) = snd (CurrentPage p)) /\
  (fst (PageSize (snd (PageSize p))) = fst (PageSize p)
   /\ snd (PageSize (snd (PageSize p))) = snd (PageSize p)).
Proof.
  unfold Limit, Offset, CurrentPage, PageSize; cbn [fst snd].
  rewrite !normalize_idempotent. repeat split; reflexivity.
Qed.

(** C7. From every state of the offset pagination, also one whose page or
    page size was set to a non-positive number, [Offset()] is
    [(CurrentPage() - 1) * PageSize()]: for the three accessors called on
    the same state, and for the three called one after the other on the
    same object, in either order.  Every accessor, [Limit()] too, leaves
    the normalized state behind, in which the page and the page size are
    at least 1.  The product is the [int64] product of the source; when
    the exact product fits in an [int64] it is the exact product. *)
Theorem Offset_is_page_times_size (p : OffsetPagination) :
  fst (Offset p) = Int64.mul (Int64.sub (fst (CurrentPage p)) 1) (fst (PageSize p)) /\
  (snd (Offset p) = normalize p /\ snd (CurrentPage p) = normalize p /\
   snd (PageSize p) = normalize p /\ snd (Limit p) = normalize p) /\
  (fst (CurrentPage p) = Page (normalize p) /\ fst (PageSize p) = PerPage (normalize p) /\
   fst (Limit p) = PerPage (normalize p)) /\
  (1 <= fst (CurrentPage p) /\ 1 <= fst (PageSize p)) /\
  ((fst (CurrentPage p) - 1) * fst (PageSize p) <= Int64.max_int ->
   Int64.in_range (fst (CurrentPage p)) ->
   fst (Offset p) = (fst (CurrentPage p) - 1) * fst (PageSize p)) /\
  (let '(size, p1) := PageSize p in
   let '(page, p2) := CurrentPage p1 in
   let '(off, p3) := Offset p2 in
   off = Int64.mul (Int64.sub page 1) size) /\
  (let '(off, p1) := Offset p in
   let '(page, p2) := CurrentPage p1 in
   let '(size, p3) := PageSize p2 in
   off = Int64.mul (Int64.sub page 1) size /\
   1 <= page /\ 1 <= size /\
   ((page - 1) * size <= Int64.max_int -> Int64.in_range page ->
    off = (page - 1) * size)).
Proof.
  pose proof (normalize_Page_pos p) as Hp.
  pose proof (normalize_PerPage_pos p) as Hs.
  assert (Hexact : (Page (normalize p) - 1) * PerPage (normalize p) <= Int64.max_int ->
                   Int64.in_range (Page (normalize p)) ->
                   Int64.mul (Int64.sub (Page (normalize p)) 1) (PerPage (normalize p))
                   = (Page (normalize p) - 1) * PerPage (normalize p)).
  { intros Hfit Hr. unfold Int64.mul, Int64.sub.
    rewrite (wrap_in_range (Page (normalize p) - 1)).
    - apply wrap_in_range. int64_bounds. nia.
    - int64_bounds. lia. }
  unfold Limit, Offset, CurrentPage, PageSize. cbn [fst snd].
  rewrite !normalize_idempotent.
  split; [reflexivity |]. split; [repeat split |]. split; [repeat split |].
  split; [split; assumption |]. split; [exact Hexact |]. split; [reflexivity |].
  split; [reflexivity |]. split; [assumption |]. split; [assumption | exact Hexact].
Qed.

(** Page 3 with a page size of 0 and a default of 0: the page size read is
    20 and the offset 40. *)
Lemma Offset_is_page_times_size_witness :
  fst (PageSize (mkOffsetPagination 3 0 0 45 0)) = 20 /\
  fst (Offset (mkOffsetPagination 3 0 0 45 0)) = 40 /\
  fst (Offset (mkOffsetPagination 3 0 0 45 0))
  = (fst (CurrentPage (mkOffsetPagination 3 0 0 45 0)) - 1)
    * fst (PageSize (mkOffsetPagination 3 0 0 45 0)).
Proof.
  destruct (Offset_is_page_times_size (mkOffsetPagination 3 0 0 45 0))
    as (_ & _ & _ & _ & H & _).
  split; [vm_compute; reflexivity |]. split; [vm_compute; reflexivity |].
  apply H; [vm_compute; discriminate | split; vm_compute; discriminate].
Defined.

(** C5. A freshly constructed seek pagination stores the limit 0, and
    [Limit()] returns the stored limit as it is: it does not apply the
    default-limit fallback, so the value it returns is not positive,
    whatever default was given.  [SetLimit] does apply the fallback. *)
Theorem seek_Limit_returns_raw_limit (defaultLimit : Z) :
  Seek.Limit (Seek.NewSeekPagination defaultLimit) = 0 /\
  Seek.Limit (Seek.NewSeekPagination 10) = 0 /\
  Seek.defaultLimit (Seek.NewSeekPagination 10) = 10 /\
  fst (Seek.SetLimit 0 (Seek.NewSeekPagination 10)) = 10.
Proof. repeat split. Qed.

(** ** Categorization and application of options *)

Lemma categorize_spec (opts filtering paging sorting : list ListOption) :
  categorize opts filtering paging sorting
  = (filtering ++ List.filter isFiltering opts,
     paging ++ List.filter IsPaginationOption opts,
     sorting ++ List.filter IsSortingOption opts).
Proof.
  revert filtering paging sorting.
  induction opts as [| opt rest IH]; intros filtering paging sorting; simpl.
  - rewrite !app_nil_r. reflexivity.
  - destruct opt; simpl; rewrite IH; unfold isFiltering; simpl;
      rewrite <- ?app_assoc; reflexivity.
Qed.

Lemma CategorizedListOptions_spec (opts : list ListOption) :
  CategorizedListOptions opts
  = (List.filter isFiltering opts,
     List.filter IsPaginationOption opts,
     List.filter IsSortingOption opts).
Proof. unfold CategorizedListOptions. rewrite categorize_spec. reflexivity. Qed.

Lemma applyAll_pure (opts : list ListOption) (query : sq.SelectBuilder)
      (h : gmap loc OffsetPagination) :
  Forall (fun o => IsPaginationOption o = false) opts ->
  applyAll opts query h = Some (fold_left applyPure opts query, h).
Proof.
  revert query. induction opts as [| opt rest IH]; intros query Hall; simpl.
  - reflexivity.
  - inversion Hall as [| ? ? Hopt Hrest]; subst.
    destruct opt; simpl in *; try discriminate; apply IH; assumption.
Qed.

Lemma filter_isFiltering_not_paging (opts : list ListOption) :
  Forall (fun o => IsPaginationOption o = false) (List.filter isFiltering opts).
Proof.
  apply List.Forall_forall. intros o Ho. apply List.filter_In in Ho as [_ Ho].
  unfold isFiltering in Ho. destruct (IsPaginationOption o); [discriminate | reflexivity].
Qed.

Lemma filter_IsSortingOption_not_paging (opts : list ListOption) :
  Forall (fun o => IsPaginationOption o = false) (List.filter IsSortingOption opts).
Proof.
  apply List.Forall_forall. intros o Ho. apply List.filter_In in Ho as [_ Ho].
  destruct o; simpl in *; try discriminate; reflexivity.
Qed.

(** C3. When the option list holds more than one paging option, [List]
    returns the configuration error with a nil pagination and the
    destination it was given; it assembles no statement and runs no query
    (the trace of observable steps is empty) and the store of pagination
    objects is as before. *)
Theorem List_two_paging_options
        {T : Type} (db : Engine T) (vs : T) (query : sq.SelectBuilder)
        (opts : list ListOption) (h : gmap loc OffsetPagination) :
  (1 < length (List.filter IsPaginationOption opts))%nat ->
  List db vs query opts h
  = Some (mkListResult vs None (Some "only one pagination option is allowed") h []).
Proof.
  intros Hlen. unfold List. rewrite CategorizedListOptions_spec.
  destruct (List.filter IsPaginationOption opts) as [| o1 [| o2 rest]] eqn:Hp;
    simpl in Hlen; try lia.
  reflexivity.
Qed.

Lemma List_two_paging_options_witness :
  List (mkEngine (list Z) (fun _ _ => Ok 45) (fun vs _ _ => (vs, None))) [7]
       (sq.mkSelect sq.Dollar [sq.newPart "*" []] (Some (sq.newPart "users" []))
                    [] [] [] [] EmptyString EmptyString)
       [withOffsetPaginationOption 1%positive; WithSortBy "id" "asc";
        withOffsetPaginationOption 2%positive]
       {[ 1%positive := NewOffsetPagination 20; 2%positive := NewOffsetPagination 50 ]}
  = Some (mkListResult [7] None (Some "only one pagination option is allowed")
            {[ 1%positive := NewOffsetPagination 20; 2%positive := NewOffsetPagination 50 ]}
            []).
Proof.
  apply List_two_paging_options. simpl. lia.
Defined.

(** ** The run of [List] *)

Lemma Apply_paging_normalized (page : loc) (p : OffsetPagination)
      (sb : sq.SelectBuilder) (h : gmap loc OffsetPagination) :
  h !! page = Some p ->
  Apply (withOffsetPaginationOption page) sb h
  = Some (sq.Offset (Int64.to_uint64 (fst (Offset p)))
                    (sq.Limit (Int64.to_uint64 (fst (Limit p))) sb),
          <[page := normalize p]> h).
Proof.
  intros Hp. unfold Apply. rewrite Hp. unfold Limit, Offset. cbn [mbind option_bind fst snd].
  rewrite !normalize_idempotent. reflexivity.
Qed.

(** The pagination object that [List] works on: the one of the single
    paging option, or a copy of a new default one. *)
Lemma List_paging_setup (opts : list ListOption) (h : gmap loc OffsetPagination) :
  (length (List.filter IsPaginationOption opts) <= 1)%nat ->
  options_allocated opts h ->
  exists (page : loc) (p0 : OffsetPagination) (h1 : gmap loc OffsetPagination),
    h1 !! page = Some p0 /\
    (forall l v, h !! l = Some v -> h1 !! l = Some v) /\
    (forall pg, In (withOffsetPaginationOption pg) opts -> pg = page /\ h1 = h) /\
    ((forall pg, ~ In (withOffsetPaginationOption pg) opts) ->
     p0 = NewOffsetPagination 20 /\ h !! page = None) /\
    (if (length (List.filter IsPaginationOption opts) =? 0)%nat
     then
       let '(p0, h) := alloc (NewOffsetPagination 20) h in
       '(o, h) ← WithOffsetPagination p0 h; Some ([o], h)
     else Some (List.filter IsPaginationOption opts, h))
    = Some ([withOffsetPaginationOption page], h1).
Proof.
  intros Hlen Halloc.
  destruct (List.filter IsPaginationOption opts) as [| o [| o' rest]] eqn:Hf;
    simpl in Hlen; try lia.
  - (* no paging option *)
    assert (Hnone : forall pg, ~ In (withOffsetPaginationOption pg) opts).
    { intros pg Hin.
      assert (In (withOffsetPaginationOption pg) (List.filter IsPaginationOption opts)) as Hin'
          by (apply List.filter_In; split; [assumption | reflexivity]).
      rewrite Hf in Hin'. destruct Hin'. }
    set (l0 := fresh (dom h)).
    set (h0 := <[l0 := NewOffsetPagination 20]> h).
    set (l1 := fresh (dom h0)).
    assert (Hl0 : h !! l0 = None) by (apply not_elem_of_dom, is_fresh).
    assert (Hl1 : h0 !! l1 = None) by (apply not_elem_of_dom, is_fresh).
    assert (Hne : l0 <> l1).
    { intros Heq. unfold h0 in Hl1. rewrite <- Heq, lookup_insert_eq in Hl1. discriminate. }
    exists l1, (NewOffsetPagination 20), (<[l1 := NewOffsetPagination 20]> h0).
    split; [apply lookup_insert_eq |].
    split.
    { intros l v Hl.
      assert (l <> l0) by congruence.
      assert (h0 !! l = Some v) as Hl' by (unfold h0; rewrite lookup_insert_ne; auto).
      assert (l <> l1) by congruence.
      rewrite lookup_insert_ne; auto. }
    split; [intros pg Hin; destruct (Hnone pg Hin) |].
    split.
    { intros _. split; [reflexivity |].
      unfold h0 in Hl1. rewrite lookup_insert_ne in Hl1; auto. }
    simpl. fold l0. fold h0.
    unfold WithOffsetPagination.
    replace (h0 !! l0) with (Some (NewOffsetPagination 20))
      by (unfold h0; rewrite lookup_insert_eq; reflexivity).
    reflexivity.
  - (* one paging option *)
    assert (Hin : In o (List.filter IsPaginationOption opts)) by (rewrite Hf; left; reflexivity).
    apply List.filter_In in Hin as [Hin Hpag].
    destruct o as [f | c d | page]; try discriminate.
    destruct (Halloc page Hin) as [p0 Hp0].
    exists page, p0, h.
    split; [assumption |]. split; [auto |].
    split.
    { intros pg Hpg.
      assert (In (withOffsetPaginationOption pg) (List.filter IsPaginationOption opts)) as Hin'
          by (apply List.filter_In; split; [assumption | reflexivity]).
      rewrite Hf in Hin'. destruct Hin' as [Heq | []]. split; congruence. }
    split; [intros Hnone; destruct (Hnone page Hin) |].
    reflexivity.
Qed.

(** What [List] computes once the paging option is settled. *)
Lemma List_run {T : Type} (db : Engine T) (vs : T) (query : sq.SelectBuilder)
      (opts : list ListOption) (h : gmap loc OffsetPagination) :
  (length (List.filter IsPaginationOption opts) <= 1)%nat ->
  options_allocated opts h ->
  exists (page : loc) (p0 : OffsetPagination) (h1 : gmap loc OffsetPagination),
    h1 !! page = Some p0 /\
    (forall l v, h !! l = Some v -> h1 !! l = Some v) /\
    (forall pg, In (withOffsetPaginationOption pg) opts -> pg = page /\ h1 = h) /\
    ((forall pg, ~ In (withOffsetPaginationOption pg) opts) ->
     p0 = NewOffsetPagination 20 /\ h !! page = None) /\
    let filtered := fold_left applyPure (List.filter isFiltering opts) query in
    let countQuery := toCountQuery filtered in
    List db vs query opts h
    = match sq.ToSql countQuery with
      | Err e =>
          Some (mkListResult vs None (Some ("assemble count query: " +:+ e)) h1
                             [EvAssemble countQuery])
      | Ok (sqlstr, args) =>
          match QueryRowScan db sqlstr args with
          | Err e =>
              Some (mkListResult vs None (Some ("count records: " +:+ e)) h1
                                 [EvAssemble countQuery; EvQueryRow sqlstr args])
          | Ok total =>
              let p := SetCountRecords total p0 in
              let h2 := <[page := p]> h1 in
              if (CountRecords p =? 0) || (CountPages p <? Page p) then
                Some (mkListResult vs (Some page) None h2
                                   [EvAssemble countQuery; EvQueryRow sqlstr args])
              else
                let dataQuery :=
                  sq.Offset (Int64.to_uint64 (fst (Offset p)))
                    (sq.Limit (Int64.to_uint64 (fst (Limit p)))
                       (fold_left applyPure (List.filter IsSortingOption opts) filtered)) in
                match sq.ToSql dataQuery with
                | Err e =>
                    Some (mkListResult vs None (Some ("assemble query: " +:+ e)) h2
                                       [EvAssemble countQuery; EvQueryRow sqlstr args;
                                        EvAssemble dataQuery])
                | Ok (sqlstr', args') =>
                    Some (mkListResult (fst (Select db vs sqlstr' args')) (Some page)
                                       (snd (Select db vs sqlstr' args')) h2
                                       [EvAssemble countQuery; EvQueryRow sqlstr args;
                                        EvAssemble dataQuery; EvSelect sqlstr' args'])
                end
          end
      end.
Proof.
  intros Hlen Halloc.
  destruct (List_paging_setup opts h Hlen Halloc)
    as (page & p0 & h1 & Hp0 & Hsub & Hone & Hnone & Hsetup).
  exists page, p0, h1. repeat (split; [assumption |]).
  intros filtered countQuery.
  unfold List. rewrite CategorizedListOptions_spec. rewrite Hsetup.
  cbn [mbind option_bind length Nat.ltb Nat.leb].
  rewrite (applyAll_pure _ query h1 (filter_isFiltering_not_paging opts)).
  cbn [mbind option_bind]. fold filtered. fold countQuery.
  destruct (sq.ToSql countQuery) as [[sqlstr args] | e]; [| reflexivity].
  destruct (QueryRowScan db sqlstr args) as [total | e]; [| reflexivity].
  rewrite Hp0. cbn [mbind option_bind].
  set (p := SetCountRecords total p0).
  destruct ((CountRecords p =? 0) || (CountPages p <? Page p)); [reflexivity |].
  rewrite (applyAll_pure _ filtered _ (filter_IsSortingOption_not_paging opts)).
  cbn [mbind option_bind applyAll].
  rewrite (Apply_paging_normalized page p) by apply lookup_insert_eq.
  cbn [mbind option_bind].
  assert (Hnp : normalize p = p) by (unfold p, SetCountRecords; apply normalize_idempotent).
  rewrite Hnp, insert_insert_eq.
  match goal with |- context [sq.ToSql ?q] => destruct (sq.ToSql q) as [[sqlstr' args'] | e] end;
    [| reflexivity].
  destruct (Select db vs sqlstr' args') as [vs' err]. reflexivity.
Qed.

(** C1. Take a call of [List] that reaches the count: at most one paging
    option, allocated, the count statement of the filtered statement
    assembles to [sqlstr] and [args], and the engine answers [total].  Let
    [p] be the pagination object of the call after [SetCountRecords total].
    If its count of records is zero (which is the case when [total] is not
    positive), or its normalized page number exceeds its number of pages,
    then [List] returns the destination it was given, that pagination
    object and no error, and the only observable steps are the assembly
    and the execution of the count statement: no data statement is
    assembled or run. *)
Theorem List_short_circuit
        {T : Type} (db : Engine T) (vs : T) (query : sq.SelectBuilder)
        (opts : list ListOption) (h : gmap loc OffsetPagination)
        (sqlstr : string) (args : list sq.arg) (total : Z) :
  (length (List.filter IsPaginationOption opts) <= 1)%nat ->
  options_allocated opts h ->
  sq.ToSql (toCountQuery (fold_left applyPure (List.filter isFiltering opts) query))
  = Ok (sqlstr, args) ->
  QueryRowScan db sqlstr args = Ok total ->
  exists (page : loc) (p0 : OffsetPagination) (h1 : gmap loc OffsetPagination),
    h1 !! page = Some p0 /\
    (forall pg, In (withOffsetPaginationOption pg) opts -> pg = page /\ h1 = h) /\
    ((forall pg, ~ In (withOffsetPaginationOption pg) opts) ->
     p0 = NewOffsetPagination 20 /\ h !! page = None) /\
    let p := SetCountRecords total p0 in
    normalize p = p /\
    (total <= 0 -> CountRecords p = 0) /\
    (CountRecords p = 0 \/ CountPages p < Page p ->
     List db vs query opts h
     = Some (mkListResult vs (Some page) None (<[page := p]> h1)
               [EvAssemble
                  (toCountQuery (fold_left applyPure (List.filter isFiltering opts) query));
                EvQueryRow sqlstr args])).
Proof.
  intros Hlen Halloc Hsql Hcount.
  destruct (List_run db vs query opts h Hlen Halloc)
    as (page & p0 & h1 & Hp0 & Hsub & Hone & Hnone & Hrun).
  exists page, p0, h1. repeat (split; [assumption |]).
  intros p. split; [apply normalize_idempotent |]. split.
  - intros Htot. unfold p, SetCountRecords. rewrite normalize_CountRecords.
    destruct p0; simpl. lia.
  - intros Hcond. rewrite Hrun. cbv zeta. rewrite Hsql, Hcount. fold p.
    replace ((CountRecords p =? 0) || (CountPages p <? Page p)) with true; [reflexivity |].
    symmetry. apply orb_true_iff. destruct Hcond; [left | right]; lia.
Qed.

Lemma scenarioC_allocated :
  options_allocated [withOffsetPaginationOption 1%positive] scenarioC_store.
Proof.
  intros page [Hin | []]. inversion Hin; subst.
  exists (mkOffsetPagination 10 20 0 0 20). reflexivity.
Defined.

Lemma List_short_circuit_witness :
  List scenario_engine [] scenario_query [withOffsetPaginationOption 1%positive]
       scenarioC_store
  = Some (mkListResult [] (Some 1%positive) None
            {[ 1%positive := mkOffsetPagination 10 20 3 45 20 ]}
            [EvAssemble (toCountQuery scenario_query);
             EvQueryRow "SELECT COUNT(*) FROM users" []]).
Proof.
  destruct (List_short_circuit scenario_engine [] scenario_query
              [withOffsetPaginationOption 1%positive] scenarioC_store
              "SELECT COUNT(*) FROM users" [] 45)
    as (page & p0 & h1 & Hp0 & Hone & _ & _ & _ & Hrun).
  - simpl. lia.
  - exact scenarioC_allocated.
  - vm_compute. reflexivity.
  - reflexivity.
  - destruct (Hone 1%positive) as [Hpg Hh]; [left; reflexivity |]. subst page h1.
    assert (p0 = mkOffsetPagination 10 20 0 0 20) as ->.
    { unfold scenarioC_store in Hp0. rewrite lookup_singleton_eq in Hp0. congruence. }
    rewrite Hrun.
    + unfold scenarioC_store. rewrite insert_singleton_eq. reflexivity.
    + right. vm_compute. reflexivity.
Defined.

(** No record: one round-trip, the destination as given and zero pages. *)
Example List_no_record :
  List empty_engine [] scenario_query [] ∅
  = Some (mkListResult [] (Some 2%positive) None
            {[ 1%positive := mkOffsetPagination 1 20 0 0 20;
               2%positive := mkOffsetPagination 1 20 0 0 20 ]}
            [EvAssemble (toCountQuery scenario_query);
             EvQueryRow "SELECT COUNT(*) FROM users" []]).
Proof. vm_compute. reflexivity. Qed.

(** 45 records, the default page size and page 1: three pages, and the
    data statement has LIMIT 20 and OFFSET 0. *)
Example List_first_page :
  List scenario_engine [] scenario_query [] ∅
  = Some (mkListResult [1; 2; 3] (Some 2%positive) None
            {[ 1%positive := mkOffsetPagination 1 20 0 0 20;
               2%positive := mkOffsetPagination 1 20 3 45 20 ]}
            [EvAssemble (toCountQuery scenario_query);
             EvQueryRow "SELECT COUNT(*) FROM users" [];
             EvAssemble (sq.Offset 0 (sq.Limit 20 scenario_query));
             EvSelect "SELECT * FROM users LIMIT 20 OFFSET 0" []]).
Proof. vm_compute. reflexivity. Qed.

(** C9. [WithOffsetPagination] copies the pagination object it is given
    into a new object of the store.  Whatever is written afterwards into
    the caller's object, applying the option to a statement gives the same
    statement, whose LIMIT and OFFSET are those of the object as it was
    when the option was built. *)
Theorem WithOffsetPagination_snapshot
        (pagination : loc) (h h1 : gmap loc OffsetPagination) (o : ListOption)
        (sb : sq.SelectBuilder) (v : OffsetPagination) :
  WithOffsetPagination pagination h = Some (o, h1) ->
  exists p : OffsetPagination,
    h !! pagination = Some p /\
    h1 !! pagination = Some p /\
    fst <$> Apply o sb h1
    = Some (sq.Offset (Int64.to_uint64 (fst (Offset p)))
                      (sq.Limit (Int64.to_uint64 (fst (Limit p))) sb)) /\
    fst <$> Apply o sb (<[pagination := v]> h1) = fst <$> Apply o sb h1.
Proof.
  unfold WithOffsetPagination, alloc. intros H.
  destruct (h !! pagination) as [p |] eqn:Hp; [| discriminate].
  cbn [mbind option_bind] in H. injection H as <- <-.
  set (l := fresh (dom h)).
  assert (Hl : h !! l = None) by (apply not_elem_of_dom, is_fresh).
  assert (Hne : l <> pagination) by congruence.
  exists p. split; [reflexivity |].
  split; [rewrite lookup_insert_ne; auto |].
  split.
  - rewrite (Apply_paging_normalized l p) by apply lookup_insert_eq. reflexivity.
  - rewrite (Apply_paging_normalized l p sb (<[pagination := v]> (<[l := p]> h))).
    + rewrite (Apply_paging_normalized l p) by apply lookup_insert_eq. reflexivity.
    + rewrite lookup_insert_ne by auto. apply lookup_insert_eq.
Qed.

Lemma WithOffsetPagination_snapshot_witness :
  exists p : OffsetPagination,
    scenarioC_store !! 1%positive = Some p /\
    <[2%positive := mkOffsetPagination 10 20 0 0 20]> scenarioC_store !! 1%positive
    = Some p /\
    fst <$> Apply (withOffsetPaginationOption 2%positive) scenario_query
                  (<[2%positive := mkOffsetPagination 10 20 0 0 20]> scenarioC_store)
    = Some (sq.Offset (Int64.to_uint64 (fst (Offset p)))
                      (sq.Limit (Int64.to_uint64 (fst (Limit p))) scenario_query)) /\
    fst <$> Apply (withOffsetPaginationOption 2%positive) scenario_query
                  (<[1%positive := SetCountRecords 45 (mkOffsetPagination 2 5 0 0 20)]>
                     (<[2%positive := mkOffsetPagination 10 20 0 0 20]> scenarioC_store))
    = fst <$> Apply (withOffsetPaginationOption 2%positive) scenario_query
                    (<[2%positive := mkOffsetPagination 10 20 0 0 20]> scenarioC_store).
Proof.
  apply (WithOffsetPagination_snapshot 1%positive scenarioC_store).
  vm_compute. reflexivity.
Defined.

(** ** The partition of the options *)

Lemma categories_exclusive (o : ListOption) :
  (isFiltering o = true /\ IsPaginationOption o = false /\ IsSortingOption o = false) \/
  (isFiltering o = false /\ IsPaginationOption o = true /\ IsSortingOption o = false) \/
  (isFiltering o = false /\ IsPaginationOption o = false /\ IsSortingOption o = true).
Proof. destruct o; unfold isFiltering; simpl; auto. Qed.

Lemma categories_permutation (opts : list ListOption) :
  Permutation opts
    (List.filter isFiltering opts ++ List.filter IsPaginationOption opts
     ++ List.filter IsSortingOption opts).
Proof.
  induction opts as [| o rest IH]; [constructor |].
  destruct (categories_exclusive o) as [(Hf & Hp & Hs) | [(Hf & Hp & Hs) | (Hf & Hp & Hs)]];
    cbn [List.filter]; rewrite Hf, Hp, Hs.
  - cbn [app]. constructor. exact IH.
  - apply Permutation_cons_app. exact IH.
  - rewrite app_assoc. apply Permutation_cons_app. rewrite <- app_assoc. exact IH.
Qed.

(** C10. [CategorizedListOptions] splits the options into three lists that
    keep the order of the input and together are a rearrangement of it;
    every option falls under exactly one of the three tests, and an option
    that is neither a paging nor a sorting option, a [ListOptionFunc] in
    particular, is a filtering option.  In a call of [List] that reaches
    the count, the count statement is derived from the statement to which
    all filtering options were applied, in order, and the count of records
    of the returned pagination is the engine's answer to that statement
    (zero when the answer is negative). *)
Theorem filtering_is_the_catch_all
        {T : Type} (db : Engine T) (vs : T) (query : sq.SelectBuilder)
        (opts : list ListOption) (h : gmap loc OffsetPagination)
        (sqlstr : string) (args : list sq.arg) (total : Z) :
  CategorizedListOptions opts
  = (List.filter isFiltering opts, List.filter IsPaginationOption opts,
     List.filter IsSortingOption opts) /\
  Permutation opts
    (List.filter isFiltering opts ++ List.filter IsPaginationOption opts
     ++ List.filter IsSortingOption opts) /\
  (forall o : ListOption,
      (isFiltering o = true /\ IsPaginationOption o = false /\ IsSortingOption o = false) \/
      (isFiltering o = false /\ IsPaginationOption o = true /\ IsSortingOption o = false) \/
      (isFiltering o = false /\ IsPaginationOption o = false /\ IsSortingOption o = true)) /\
  (forall f, isFiltering (ListOptionFunc f) = true) /\
  (forall f query' h', Apply (ListOptionFunc f) query' h' = Some (f query', h')) /\
  ((length (List.filter IsPaginationOption opts) <= 1)%nat ->
   options_allocated opts h ->
   sq.ToSql (toCountQuery (fold_left applyPure (List.filter isFiltering opts) query))
   = Ok (sqlstr, args) ->
   QueryRowScan db sqlstr args = Ok total ->
   exists r : ListResult T,
     List db vs query opts h = Some r /\
     (exists rest,
         res_trace r
         = EvAssemble
             (toCountQuery (fold_left applyPure (List.filter isFiltering opts) query))
           :: EvQueryRow sqlstr args :: rest) /\
     (forall page, res_pagination r = Some page ->
                   exists p, res_store r !! page = Some p /\
                             CountRecords p = Z.max 0 total)).
Proof.
  split; [apply CategorizedListOptions_spec |].
  split; [apply categories_permutation |].
  split; [apply categories_exclusive |].
  split; [reflexivity |].
  split; [reflexivity |].
  intros Hlen Halloc Hsql Hcount.
  destruct (List_run db vs query opts h Hlen Halloc)
    as (page & p0 & h1 & Hp0 & Hsub & Hone & Hnone & Hrun).
  cbv zeta in Hrun. rewrite Hsql, Hcount in Hrun.
  assert (Hrec : CountRecords (SetCountRecords total p0) = Z.max 0 total).
  { unfold SetCountRecords. rewrite normalize_CountRecords. destruct p0; reflexivity. }
  set (p := SetCountRecords total p0) in *.
  destruct ((CountRecords p =? 0) || (CountPages p <? Page p)).
  - eexists. split; [exact Hrun |]. cbn [res_trace res_pagination res_store].
    split; [eexists; reflexivity |].
    intros page' Hpage. injection Hpage as <-. exists p.
    split; [apply lookup_insert_eq | exact Hrec].
  - match type of Hrun with context [sq.ToSql ?q] =>
      destruct (sq.ToSql q) as [[sqlstr' args'] | e] end.
    + eexists. split; [exact Hrun |]. cbn [res_trace res_pagination res_store].
      split; [eexists; reflexivity |].
      intros page' Hpage. injection Hpage as <-. exists p.
      split; [apply lookup_insert_eq | exact Hrec].
    + eexists. split; [exact Hrun |]. cbn [res_trace res_pagination res_store].
      split; [eexists; reflexivity |].
      intros page' Hpage. discriminate.
Qed.

Lemma filter_options_allocated : options_allocated filter_options ∅.
Proof.
  intros page Hin. simpl in Hin. destruct Hin as [H | [H | []]]; discriminate.
Defined.

Lemma filtering_is_the_catch_all_witness :
  exists r : ListResult (list Z),
    List filter_engine [] scenario_query filter_options ∅ = Some r /\
    (exists rest,
        res_trace r
        = EvAssemble
            (toCountQuery
               (fold_left applyPure (List.filter isFiltering filter_options) scenario_query))
          :: EvQueryRow "SELECT COUNT(*) FROM users WHERE age > $1" [sq.ArgInt 3] :: rest) /\
    (forall page, res_pagination r = Some page ->
                  exists p, res_store r !! page = Some p /\ CountRecords p = Z.max 0 7).
Proof.
  destruct (filtering_is_the_catch_all filter_engine [] scenario_query filter_options ∅
              "SELECT COUNT(*) FROM users WHERE age > $1" [sq.ArgInt 3] 7)
    as (_ & _ & _ & _ & _ & H).
  apply H.
  - simpl. lia.
  - exact filter_options_allocated.
  - vm_compute. reflexivity.
  - reflexivity.
Defined.

(** ** Rendering of a statement *)

Lemma string_app_nil_l (s : string) : EmptyString +:+ s = s.
Proof. reflexivity. Qed.

Lemma string_app_cons (c : ascii) (s t : string) : String c s +:+ t = String c (s +:+ t).
Proof. reflexivity. Qed.

Lemma string_app_assoc (s1 s2 s3 : string) : (s1 +:+ s2) +:+ s3 = s1 +:+ s2 +:+ s3.
Proof.
  induction s1 as [| c s1 IH]; [reflexivity |].
  rewrite !string_app_cons, IH. reflexivity.
Qed.

Lemma string_app_nil_r (s : string) : s +:+ EmptyString = s.
Proof.
  induction s as [| c s IH]; [reflexivity |].
  rewrite string_app_cons, IH. reflexivity.
Qed.

Lemma appendToSql_appends (parts : list sq.Sqlizer) (first : bool) (sep : string)
      (s : string) (a : list sq.arg) :
  sq.appendToSql parts first sep (s, a)
  = rbind (sq.appendToSql parts first sep (EmptyString, [])) (prepend s a).
Proof.
  revert first s a. induction parts as [| [[partSql partArgs] | e] rest IH];
    intros first s a; cbn [sq.appendToSql].
  - unfold prepend; cbn [rbind fst snd]. rewrite string_app_nil_r, app_nil_r. reflexivity.
  - destruct (sq.is_empty partSql); [apply IH |].
    cbn [fst snd]. rewrite IH. symmetry. rewrite IH.
    destruct (sq.appendToSql rest false sep (EmptyString, [])) as [[t ta] | e];
      [| reflexivity].
    unfold prepend; cbn [rbind fst snd app]. f_equal. f_equal.
    + destruct first; rewrite ?string_app_nil_l, ?string_app_assoc; reflexivity.
    + rewrite app_assoc. reflexivity.
  - reflexivity.
Qed.

Lemma appends_keyword (parts : list sq.Sqlizer) (first : bool) (sep kw : string) :
  appends (fun acc => sq.appendToSql parts first sep (fst acc +:+ kw, snd acc)).
Proof.
  intros s a. cbn [fst snd]. rewrite string_app_nil_l.
  rewrite appendToSql_appends. symmetry. rewrite appendToSql_appends.
  destruct (sq.appendToSql parts first sep (EmptyString, [])) as [[t ta] | e];
    [| reflexivity].
  unfold prepend; cbn [rbind fst snd app]. rewrite string_app_assoc. reflexivity.
Qed.

Lemma appends_text (t : string) :
  appends (fun acc => Ok (fst acc +:+ t, snd acc)).
Proof.
  intros s a. unfold prepend; cbn [rbind fst snd].
  rewrite string_app_nil_l, app_nil_r. reflexivity.
Qed.

Lemma appends_id : appends (fun acc => Ok acc).
Proof.
  intros s a. unfold prepend; cbn [rbind fst snd].
  rewrite string_app_nil_r, app_nil_r. reflexivity.
Qed.

Lemma appends_bind (F G : string * list sq.arg -> result (string * list sq.arg)) :
  appends F -> appends G -> appends (fun acc => rbind (F acc) G).
Proof.
  intros HF HG s a. rewrite HF.
  destruct (F (EmptyString, [])) as [[t ta] | e]; [| reflexivity].
  unfold prepend at 1. cbn [rbind fst snd].
  rewrite HG. symmetry. rewrite HG.
  destruct (G (EmptyString, [])) as [[u ua] | e]; [| reflexivity].
  unfold prepend; cbn [rbind fst snd]. rewrite string_app_assoc, app_assoc. reflexivity.
Qed.

Lemma renderTail_appends (b : sq.SelectBuilder) : appends (sq.renderTail b).
Proof.
  unfold sq.renderTail.
  repeat apply appends_bind.
  - unfold sq.writeFrom. destruct (sq.sel_from b);
      [apply (appends_keyword _ true EmptyString " FROM ") | apply appends_id].
  - unfold sq.writeJoins. destruct (sq.sel_joins b) as [| j js];
      [apply appends_id | apply (appends_keyword (j :: js) true " " " ")].
  - unfold sq.writeWhere. destruct (sq.sel_where b) as [| w ws];
      [apply appends_id | apply (appends_keyword (w :: ws) true " AND " " WHERE ")].
  - unfold sq.writeGroupBy. destruct (sq.sel_group_by b) as [| g gs];
      [apply appends_id | apply (appends_text (" GROUP BY " +:+ Join (g :: gs) ", "))].
  - unfold sq.writeOrderBy. destruct (sq.sel_order_by b) as [| o os];
      [apply appends_id | apply (appends_keyword (o :: os) true ", " " ORDER BY ")].
  - unfold sq.writeLimit. destruct (sq.is_empty (sq.sel_limit b));
      [apply appends_id | apply (appends_text (" LIMIT " +:+ sq.sel_limit b))].
  - unfold sq.writeOffset. destruct (sq.is_empty (sq.sel_offset b));
      [apply appends_id | apply (appends_text (" OFFSET " +:+ sq.sel_offset b))].
Qed.

Lemma renderTail_with_columns (c : list sq.Sqlizer) (b : sq.SelectBuilder)
      (acc : string * list sq.arg) :
  sq.renderTail (sq.with_columns c b) acc = sq.renderTail b acc.
Proof. reflexivity. Qed.

Lemma appendToSql_no_args (parts : list sq.Sqlizer) (first : bool) (sep : string)
      (acc r : string * list sq.arg) :
  Forall bindsNoArgs parts ->
  sq.appendToSql parts first sep acc = Ok r -> snd r = snd acc.
Proof.
  revert first acc. induction parts as [| c rest IH]; intros first acc Hall H.
  - simpl in H. congruence.
  - inversion Hall as [| ? ? [sql ->] Hrest]; subst. cbn [sq.appendToSql] in H.
    destruct (sq.is_empty sql).
    + apply (IH _ _ Hrest H).
    + rewrite (IH _ _ Hrest H). cbn [snd]. apply app_nil_r.
Qed.

Lemma toSqlRaw_toCountQuery (query : sq.SelectBuilder) :
  sq.toSqlRaw (toCountQuery query)
  = rbind (sq.renderTail query (EmptyString, [])) (prepend "SELECT COUNT(*)" []).
Proof.
  unfold sq.toSqlRaw, toCountQuery, sq.Columns, sq.Delete_Columns.
  cbn [sq.sel_columns sq.with_columns app map sq.newPart sq.appendToSql sq.is_empty
       rbind fst snd].
  rewrite !renderTail_with_columns. apply renderTail_appends.
Qed.

Lemma toSqlRaw_split (query : sq.SelectBuilder) (text : string) (args : list sq.arg) :
  sq.toSqlRaw query = Ok (text, args) ->
  exists ctext cargs tail targs,
    sq.appendToSql (sq.sel_columns query) true ", " ("SELECT ", []) = Ok (ctext, cargs) /\
    sq.renderTail query (EmptyString, []) = Ok (tail, targs) /\
    text = ctext +:+ tail /\ args = cargs ++ targs.
Proof.
  unfold sq.toSqlRaw. intros H.
  destruct (sq.sel_columns query) as [| c cols]; [discriminate |].
  destruct (sq.appendToSql (c :: cols) true ", " ("SELECT ", [])) as [[ctext cargs] | e];
    [| discriminate].
  cbn [rbind] in H. rewrite renderTail_appends in H.
  destruct (sq.renderTail query (EmptyString, [])) as [[tail targs] | e]; [| discriminate].
  unfold prepend in H; cbn [rbind fst snd] in H. injection H as <- <-.
  exists ctext, cargs, tail, targs. repeat split; reflexivity.
Qed.

(** C2, as the code has it.  The count statement projects the row count
    alone and has the FROM, JOIN, WHERE, GROUP BY (and ORDER BY, LIMIT, OFFSET,
    placeholder format) of the statement it is derived from; it does not
    depend on what that statement projected.  When the statement renders,
    the count statement renders too: its text is the row-count projection
    followed by the text that followed the projection, and its arguments are the
    arguments of the statement without those bound by the projection.  So
    its argument list is the one of the statement whenever the projected
    columns bind no argument. *)
Theorem toCountQuery_keeps_clauses (query : sq.SelectBuilder) :
  sq.sel_columns (toCountQuery query) = [sq.newPart "COUNT(*)" []] /\
  (sq.sel_from (toCountQuery query) = sq.sel_from query /\
   sq.sel_joins (toCountQuery query) = sq.sel_joins query /\
   sq.sel_where (toCountQuery query) = sq.sel_where query /\
   sq.sel_group_by (toCountQuery query) = sq.sel_group_by query /\
   sq.sel_order_by (toCountQuery query) = sq.sel_order_by query /\
   sq.sel_limit (toCountQuery query) = sq.sel_limit query /\
   sq.sel_offset (toCountQuery query) = sq.sel_offset query /\
   sq.sel_placeholder (toCountQuery query) = sq.sel_placeholder query) /\
  (forall cols, toCountQuery (sq.with_columns cols query) = toCountQuery query) /\
  (forall cols, toCountQuery (sq.Columns cols query) = toCountQuery query) /\
  (forall text args,
      sq.toSqlRaw query = Ok (text, args) ->
      exists ctext cargs tail targs,
        sq.appendToSql (sq.sel_columns query) true ", " ("SELECT ", []) = Ok (ctext, cargs) /\
        text = ctext +:+ tail /\ args = cargs ++ targs /\
        sq.toSqlRaw (toCountQuery query) = Ok ("SELECT COUNT(*)" +:+ tail, targs) /\
        (Forall bindsNoArgs (sq.sel_columns query) -> targs = args)) /\
  (forall text args,
      sq.ToSql query = Ok (text, args) ->
      exists ctext cargs colargs,
        sq.ToSql (toCountQuery query) = Ok (ctext, cargs) /\
        args = colargs ++ cargs /\
        (Forall bindsNoArgs (sq.sel_columns query) -> cargs = args)).
Proof.
  split; [reflexivity |]. split; [repeat split |].
  split; [reflexivity |]. split; [reflexivity |].
  assert (Hraw : forall text args,
             sq.toSqlRaw query = Ok (text, args) ->
             exists ctext cargs tail targs,
               sq.appendToSql (sq.sel_columns query) true ", " ("SELECT ", [])
               = Ok (ctext, cargs) /\
               text = ctext +:+ tail /\ args = cargs ++ targs /\
               sq.toSqlRaw (toCountQuery query) = Ok ("SELECT COUNT(*)" +:+ tail, targs) /\
               (Forall bindsNoArgs (sq.sel_columns query) -> targs = args)).
  { intros text args H.
    destruct (toSqlRaw_split query text args H)
      as (ctext & cargs & tail & targs & Hcols & Htail & -> & ->).
    exists ctext, cargs, tail, targs. repeat (split; [reflexivity || assumption |]).
    split.
    - rewrite toSqlRaw_toCountQuery, Htail. reflexivity.
    - intros Hall. pose proof (appendToSql_no_args _ _ _ _ _ Hall Hcols) as Hc.
      cbn [snd] in Hc. subst cargs. reflexivity. }
  split; [exact Hraw |].
  intros text args H. unfold sq.ToSql in H.
  destruct (sq.toSqlRaw query) as [[rawtext rawargs] | e] eqn:Hq; [| discriminate].
  cbn [rbind fst snd] in H. injection H as <- <-.
  destruct (Hraw rawtext rawargs eq_refl) as (ctext & cargs & tail & targs & _ & _ & -> & Hc & Hn).
  exists (sq.ReplacePlaceholders (sq.sel_placeholder query) ("SELECT COUNT(*)" +:+ tail)),
    targs, cargs.
  split; [| split; [reflexivity | exact Hn]].
  unfold sq.ToSql. rewrite Hc. reflexivity.
Qed.

Lemma toCountQuery_keeps_clauses_witness :
  exists ctext cargs colargs,
    sq.ToSql (toCountQuery (sq.Where (sq.newPart "age > ?" [sq.ArgInt 3])
                              (sq.Columns ["id"; "name"] scenario_query)))
    = Ok (ctext, cargs) /\
    [sq.ArgInt 3] = colargs ++ cargs /\
    (Forall bindsNoArgs
       (sq.sel_columns (sq.Where (sq.newPart "age > ?" [sq.ArgInt 3])
                          (sq.Columns ["id"; "name"] scenario_query))) ->
     cargs = [sq.ArgInt 3]).
Proof.
  destruct (toCountQuery_keeps_clauses
              (sq.Where (sq.newPart "age > ?" [sq.ArgInt 3])
                 (sq.Columns ["id"; "name"] scenario_query)))
    as (_ & _ & _ & _ & _ & H).
  apply (H "SELECT *, id, name FROM users WHERE age > $1").
  vm_compute. reflexivity.
Defined.

(** C2 as stated fails on a statement whose projection binds an argument:
    the statement renders with two arguments, its count statement with
    one. *)
Lemma toCountQuery_drops_projection_arguments :
  sq.ToSql projection_with_argument
  = Ok ("SELECT price > ? AS costly FROM items WHERE age > ?",
        [sq.ArgInt 100; sq.ArgInt 3]) /\
  sq.ToSql (toCountQuery projection_with_argument)
  = Ok ("SELECT COUNT(*) FROM items WHERE age > ?", [sq.ArgInt 3]) /\
  [sq.ArgInt 3] <> [sq.ArgInt 100; sq.ArgInt 3].
Proof. repeat split; [vm_compute; reflexivity .. | discriminate]. Qed.

(** ** The Link header *)

Lemma string_length_app (a b : string) :
  String.length (a +:+ b) = (String.length a + String.length b)%nat.
Proof.
  induction a as [| c a IH]; [reflexivity |].
  rewrite string_app_cons. cbn [String.length]. rewrite IH. reflexivity.
Qed.

Lemma suffix_same_length (a b s1 s2 : string) :
  String.length s1 = String.length s2 -> a +:+ s1 = b +:+ s2 -> s1 = s2.
Proof.
  revert b. induction a as [| c a IH]; intros [| c' b] Hlen H.
  - exact H.
  - rewrite string_app_nil_l in H. subst s1.
    rewrite string_app_cons in Hlen. cbn [String.length] in Hlen.
    rewrite string_length_app in Hlen. lia.
  - rewrite string_app_nil_l in H. subst s2.
    rewrite string_app_cons in Hlen. cbn [String.length] in Hlen.
    rewrite string_length_app in Hlen. lia.
  - rewrite !string_app_cons in H. injection H as _ H. exact (IH b Hlen H).
Qed.

Lemma linkEntry_split (path enc rel : string) :
  linkEntry path enc rel = ("<" +:+ path +:+ "?" +:+ enc +:+ ">; ") +:+ relSuffix rel.
Proof. unfold linkEntry. rewrite !string_app_assoc. reflexivity. Qed.

Lemma linkEntry_hasRel (path enc rel : string) : hasRel rel (linkEntry path enc rel).
Proof. eexists. apply linkEntry_split. Qed.

Lemma not_hasRel (rel pre s : string) :
  String.length s = String.length (relSuffix rel) ->
  s <> relSuffix rel -> ~ hasRel rel (pre +:+ s).
Proof.
  intros Hlen Hne [pre' H]. apply Hne. exact (suffix_same_length _ _ _ _ Hlen H).
Qed.

Lemma first_not_short (path enc rel : string) :
  rel = "prev" \/ rel = "next" -> ~ hasRel rel (linkEntry path enc "first").
Proof.
  intros Hrel. rewrite linkEntry_split.
  change (relSuffix "first") with ("r" +:+ ("el=" +:+ dquote +:+ "first" +:+ dquote)).
  rewrite <- string_app_assoc.
  destruct Hrel as [-> | ->]; apply not_hasRel; (reflexivity || (vm_compute; discriminate)).
Qed.

Lemma other_not_hasRel (path enc rel rel' : string) :
  String.length rel = String.length rel' -> relSuffix rel' <> relSuffix rel ->
  ~ hasRel rel (linkEntry path enc rel').
Proof.
  intros Hlen Hne. rewrite linkEntry_split. apply not_hasRel; [| exact Hne].
  unfold relSuffix. rewrite !string_length_app. lia.
Qed.

Lemma add_one_no_overflow (z : Z) :
  Int64.in_range z -> z < Int64.max_int -> Int64.add z 1 = z + 1.
Proof.
  intros Hr Hlt. apply wrap_in_range. int64_bounds. lia.
Qed.

Lemma sub_one_no_overflow (z : Z) :
  Int64.in_range z -> 1 < z -> Int64.sub z 1 = z - 1.
Proof.
  intros Hr Hlt. apply wrap_in_range. int64_bounds. lia.
Qed.

(** *** The encoded query *)

Lemma insertKey_perm (kv : string * list string) (l : list (string * list string)) :
  Permutation (url.insertKey kv l) (kv :: l).
Proof.
  induction l as [| kv' rest IH]; cbn [url.insertKey]; [reflexivity |].
  destruct (String.leb (fst kv) (fst kv')); [reflexivity |].
  rewrite IH. apply perm_swap.
Qed.

Lemma sortKeys_perm (l : list (string * list string)) : Permutation (url.sortKeys l) l.
Proof.
  unfold url.sortKeys. induction l as [| kv rest IH]; cbn [foldr]; [reflexivity |].
  rewrite insertKey_perm, IH. reflexivity.
Qed.

Lemma In_encodePairs (v : gmap string (list string)) (k x : string) (vs : list string) :
  v !! k = Some vs -> In x vs ->
  In (url.QueryEscape k +:+ "=" +:+ url.QueryEscape x) (url.encodePairs v).
Proof.
  intros Hk Hx. unfold url.encodePairs. apply in_flat_map.
  exists (k, vs). split.
  - apply (Permutation_in _ (Permutation_sym (sortKeys_perm _))).
    apply list_elem_of_In, elem_of_map_to_list. exact Hk.
  - cbn [fst snd]. apply in_map_iff. exists x. split; [reflexivity | exact Hx].
Qed.

Lemma QueryEscape_unreserved (s : string) :
  url.allUnreserved s = true -> url.QueryEscape s = s.
Proof.
  induction s as [| c rest IH]; cbn [url.allUnreserved url.QueryEscape]; [reflexivity |].
  intros H. apply andb_true_iff in H as [Hc Hrest]. rewrite Hc, (IH Hrest). reflexivity.
Qed.

Lemma pretty_N_go_unreserved (x : N) (s : string) :
  url.allUnreserved s = true -> url.allUnreserved (pretty_N_go x s) = true.
Proof.
  revert s. induction (N.lt_wf_0 x) as [x _ IH]; intros s Hs.
  destruct (N.eq_dec x 0%N) as [-> | Hx]; [rewrite pretty_N_go_0; exact Hs |].
  rewrite pretty_N_go_step by lia. apply IH.
  - apply N.div_lt; lia.
  - cbn [url.allUnreserved]. rewrite Hs, andb_true_r.
    unfold pretty_N_char. repeat case_match; reflexivity.
Qed.

Lemma FormatInt_unreserved (z : Z) : url.allUnreserved (FormatInt z) = true.
Proof.
  unfold FormatInt, pretty, pretty_Z. destruct z as [| x | x]; [reflexivity | |].
  - unfold pretty, pretty_positive, pretty, pretty_N.
    destruct (decide (N.pos x = 0%N)); [reflexivity |].
    apply pretty_N_go_unreserved. reflexivity.
  - rewrite string_app_cons, string_app_nil_l. cbn [url.allUnreserved].
    unfold pretty, pretty_positive, pretty, pretty_N.
    destruct (decide (N.pos x = 0%N)); [reflexivity |].
    apply pretty_N_go_unreserved. reflexivity.
Qed.

(** The query of an entry lists the pair of [page] and the page number. *)
Lemma page_pair_encoded (q : gmap string (list string)) (n : Z) :
  In ("page=" +:+ FormatInt n) (url.encodePairs (url.Values_Set "page" (FormatInt n) q)).
Proof.
  pose proof (In_encodePairs (url.Values_Set "page" (FormatInt n) q) "page"
                (FormatInt n) [FormatInt n]) as H.
  rewrite (QueryEscape_unreserved (FormatInt n) (FormatInt_unreserved n)) in H.
  apply H; [apply lookup_insert_eq | left; reflexivity].
Qed.

Lemma In_encodePairs_inv (v : gmap string (list string)) (pair : string) :
  In pair (url.encodePairs v) ->
  exists (k x : string) (vs : list string),
    v !! k = Some vs /\ In x vs /\
    pair = url.QueryEscape k +:+ "=" +:+ url.QueryEscape x.
Proof.
  unfold url.encodePairs. intros H.
  apply in_flat_map in H as ([k vs] & Hkv & Hin). cbn [fst snd] in Hin.
  apply in_map_iff in Hin as (x & <- & Hx).
  exists k, x, vs. split; [| split; [exact Hx | reflexivity]].
  apply elem_of_map_to_list, list_elem_of_In.
  exact (Permutation_in _ (sortKeys_perm _) Hkv).
Qed.

(** The entry that the code writes for a page number is, as a text, a link
    to that page. *)
Lemma pageEntry_pageLink (theURL : url.URL) (n : Z) (rel : string) :
  pageLink theURL n rel (pageEntry theURL n rel).
Proof.
  exists (url.encodePairs (url.Values_Set "page" (FormatInt n) (url.Query theURL))).
  split; [reflexivity |]. split; [apply page_pair_encoded |]. split.
  - intros pair Hin. apply In_encodePairs_inv in Hin as (k & x & vs & Hk & Hx & ->).
    unfold url.Values_Set in Hk. destruct (decide (k = "page")) as [-> | Hne].
    + rewrite lookup_insert_eq in Hk. injection Hk as <-. destruct Hx as [<- | []].
      left. rewrite (QueryEscape_unreserved _ (FormatInt_unreserved n)). reflexivity.
    + rewrite lookup_insert_ne in Hk by congruence. right. exists k, x, vs.
      split; [intros [H | []]; congruence |]. split; [exact Hk |].
      split; [exact Hx | reflexivity].
  - intros pair (k & x & vs & Hk & Hq & Hx & ->).
    apply (In_encodePairs _ k x vs); [| exact Hx].
    unfold url.Values_Set. rewrite lookup_insert_ne; [exact Hq |].
    intros <-. apply Hk. left. reflexivity.
Qed.

Lemma FormatInt_1 : FormatInt 1 = "1".
Proof. vm_compute. reflexivity. Qed.

Lemma linkHeaders_entries (p : OffsetPagination) (theURL : url.URL) :
  linkHeaders p theURL
  = [pageEntry theURL 1 "first"]
    ++ (if 1 <? Page p then [pageEntry theURL (Int64.sub (Page p) 1) "prev"] else [])
    ++ (if Int64.add (Page p) 1 <? CountPages p
        then [pageEntry theURL (Int64.add (Page p) 1) "next"] else [])
    ++ [pageEntry theURL (CountPages p) "last"].
Proof.
  unfold linkHeaders, pageEntry. rewrite FormatInt_1.
  destruct (1 <? Page p); destruct (Int64.add (Page p) 1 <? CountPages p); reflexivity.
Qed.

Lemma linkHeaders_In (p : OffsetPagination) (theURL : url.URL) (e : string) :
  In e (linkHeaders p theURL) <->
  e = pageEntry theURL 1 "first" \/
  (1 < Page p /\ e = pageEntry theURL (Int64.sub (Page p) 1) "prev") \/
  (Int64.add (Page p) 1 < CountPages p /\
   e = pageEntry theURL (Int64.add (Page p) 1) "next") \/
  e = pageEntry theURL (CountPages p) "last".
Proof.
  rewrite linkHeaders_entries.
  destruct (Z.ltb_spec 1 (Page p)) as [Hprev | Hprev];
    destruct (Z.ltb_spec (Int64.add (Page p) 1) (CountPages p)) as [Hnext | Hnext];
    cbn [app In]; split; intros H;
    repeat match goal with
           | H : _ \/ _ |- _ => destruct H as [H | H]
           | H : _ /\ _ |- _ => destruct H as [? H]
           | H : False |- _ => destruct H
           end;
    subst; auto 10; lia.
Qed.

(** An entry of another relation does not carry the relation prev or
    next. *)
Lemma pageEntry_not_hasRel (theURL : url.URL) (n : Z) (rel rel' : string) :
  rel = "prev" \/ rel = "next" ->
  In rel' ["first"; "prev"; "next"; "last"] -> rel <> rel' ->
  ~ hasRel rel (pageEntry theURL n rel').
Proof.
  intros Hrel Hin Hne. unfold pageEntry. cbn [In] in Hin.
  destruct Hin as [<- | [<- | [<- | [<- | []]]]].
  - apply first_not_short. exact Hrel.
  - destruct Hrel as [-> | ->]; [congruence |].
    apply other_not_hasRel; [reflexivity | vm_compute; discriminate].
  - destruct Hrel as [-> | ->]; [| congruence].
    apply other_not_hasRel; [reflexivity | vm_compute; discriminate].
  - destruct Hrel as [-> | ->];
      (apply other_not_hasRel; [reflexivity | vm_compute; discriminate]).
Qed.

(** C4. The Link header of an offset pagination is the join of its
    entries.  There is always an entry that is the link of the relation
    first to page 1 and one that is the link of the relation last to the
    number of pages: the text of a link is the request path and a query
    that holds the pair of [page] and the page number, besides the pairs
    of the other parameters of the request.  An entry of the relation prev
    is there if and only if the page is greater than 1, and every such
    entry is the link to the page before.  An entry of the relation next
    is there if and only if the page plus one, as the [int64] sum of the
    source, is strictly less than the number of pages, and every such
    entry is the link to that page; below the greatest [int64] the sum is
    the exact one. *)
Theorem LinkHeader_relations (p : OffsetPagination) (theURL : url.URL) :
  int64_fields p ->
  let entries := linkHeaders p theURL in
  LinkHeader p theURL = Join entries ", " /\
  (exists e, In e entries /\ pageLink theURL 1 "first" e) /\
  (exists e, In e entries /\ pageLink theURL (CountPages p) "last" e) /\
  ((exists e, In e entries /\ hasRel "prev" e) <-> 1 < Page p) /\
  (forall e, In e entries -> hasRel "prev" e -> pageLink theURL (Page p - 1) "prev" e) /\
  ((exists e, In e entries /\ hasRel "next" e) <-> Int64.add (Page p) 1 < CountPages p) /\
  (forall e, In e entries -> hasRel "next" e ->
             pageLink theURL (Int64.add (Page p) 1) "next" e) /\
  (Page p < Int64.max_int -> Int64.add (Page p) 1 = Page p + 1).
Proof.
  intros (HPage & _ & _ & _ & _) entries. subst entries.
  assert (Hprev : forall e, In e (linkHeaders p theURL) -> hasRel "prev" e ->
                            1 < Page p /\
                            e = pageEntry theURL (Int64.sub (Page p) 1) "prev").
  { intros e Hin Hrel. apply linkHeaders_In in Hin.
    destruct Hin as [-> | [[H ->] | [[H ->] | ->]]]; [exfalso | auto | exfalso ..];
      revert Hrel; apply pageEntry_not_hasRel;
      try (left; reflexivity); cbn [In]; auto 6; discriminate. }
  assert (Hnext : forall e, In e (linkHeaders p theURL) -> hasRel "next" e ->
                            Int64.add (Page p) 1 < CountPages p /\
                            e = pageEntry theURL (Int64.add (Page p) 1) "next").
  { intros e Hin Hrel. apply linkHeaders_In in Hin.
    destruct Hin as [-> | [[H ->] | [[H ->] | ->]]]; [exfalso | exfalso | auto | exfalso];
      revert Hrel; apply pageEntry_not_hasRel;
      try (right; reflexivity); cbn [In]; auto 6; discriminate. }
  split; [reflexivity |].
  split.
  { eexists. split; [apply linkHeaders_In; left; reflexivity | apply pageEntry_pageLink]. }
  split.
  { eexists. split; [apply linkHeaders_In; do 3 right; reflexivity |].
    apply pageEntry_pageLink. }
  split.
  { split.
    - intros (e & Hin & Hrel). apply (Hprev e Hin Hrel).
    - intros H. eexists. split.
      + apply linkHeaders_In. right. left. split; [exact H | reflexivity].
      + apply linkEntry_hasRel. }
  split.
  { intros e Hin Hrel. destruct (Hprev e Hin Hrel) as [H ->].
    rewrite (sub_one_no_overflow (Page p) HPage H). apply pageEntry_pageLink. }
  split.
  { split.
    - intros (e & Hin & Hrel). apply (Hnext e Hin Hrel).
    - intros H. eexists. split.
      + apply linkHeaders_In. right. right. left. split; [exact H | reflexivity].
      + apply linkEntry_hasRel. }
  split.
  { intros e Hin Hrel. destruct (Hnext e Hin Hrel) as [H ->]. apply pageEntry_pageLink. }
  intros Hlt. apply add_one_no_overflow; assumption.
Qed.

(** Page 2 of 5 on [/users?q=a b&page=7]: the entry of the relation next
    is the link to page 3, with the request's own [page] replaced. *)
Lemma LinkHeader_relations_witness :
  let entries := linkHeaders (mkOffsetPagination 2 20 5 100 20) users_url in
  LinkHeader (mkOffsetPagination 2 20 5 100 20) users_url = Join entries ", " /\
  (exists e, In e entries /\ hasRel "next" e) /\
  (forall e, In e entries -> hasRel "next" e -> pageLink users_url 3 "next" e) /\
  (exists e, In e entries /\ hasRel "prev" e) /\
  (forall e, In e entries -> hasRel "prev" e -> pageLink users_url (2 - 1) "prev" e) /\
  In (linkText "/users" ["page=3"; "q=a+b"] "next") entries.
Proof.
  destruct (LinkHeader_relations (mkOffsetPagination 2 20 5 100 20) users_url)
    as (Hjoin & _ & _ & Hprev & Hprev' & Hnext & Hnext' & _).
  - int64_bounds. simpl. lia.
  - split; [exact Hjoin |]. split; [apply Hnext; vm_compute; reflexivity |].
    split; [exact Hnext' |]. split; [apply Hprev; reflexivity |].
    split; [exact Hprev' |]. vm_compute. auto 6.
Defined.

(** The second-to-last page has no entry of the relation next, the last
    page neither. *)
Example LinkHeader_page_4_of_5 :
  linkHeaders (mkOffsetPagination 4 20 5 100 20) users_url
  = [linkText "/users" ["page=1"; "q=a+b"] "first";
     linkText "/users" ["page=3"; "q=a+b"] "prev";
     linkText "/users" ["page=5"; "q=a+b"] "last"] /\
  linkHeaders (mkOffsetPagination 2 20 5 100 20) users_url
  = [linkText "/users" ["page=1"; "q=a+b"] "first";
     linkText "/users" ["page=1"; "q=a+b"] "prev";
     linkText "/users" ["page=3"; "q=a+b"] "next";
     linkText "/users" ["page=5"; "q=a+b"] "last"] /\
  linkHeaders (mkOffsetPagination 5 20 5 100 20) users_url
  = [linkText "/users" ["page=1"; "q=a+b"] "first";
     linkText "/users" ["page=4"; "q=a+b"] "prev";
     linkText "/users" ["page=5"; "q=a+b"] "last"].
Proof. repeat split; vm_compute; reflexivity. Qed.

(** ** The number of pages *)

Lemma round_half_even_spec (n d : Z) :
  0 < d ->
  2 * n - d <= 2 * Float64.round_half_even n d * d <= 2 * n + d.
Proof.
  intros Hd. unfold Float64.round_half_even.
  pose proof (Z.div_mod n d ltac:(lia)) as Hdm.
  pose proof (Z.mod_pos_bound n d Hd) as Hr.
  destruct (Z.ltb_spec (2 * (n mod d)) d); [nia |].
  destruct (Z.ltb_spec d (2 * (n mod d))); [nia |].
  destruct (Z.even (n / d)); nia.
Qed.

Lemma round_half_even_exact (c d : Z) :
  0 < d -> Float64.round_half_even (c * d) d = c.
Proof.
  intros Hd. unfold Float64.round_half_even.
  rewrite Z.div_mul by lia. rewrite Z.mod_mul by lia.
  destruct (Z.ltb_spec (2 * 0) d); [reflexivity | lia].
Qed.

Lemma round_half_even_le (n d c : Z) :
  0 < d -> n <= c * d -> Float64.round_half_even n d <= c.
Proof.
  intros Hd Hn. pose proof (round_half_even_spec n d Hd). nia.
Qed.

Lemma round_half_even_ge (n d c : Z) :
  0 < d -> c * d <= n -> c <= Float64.round_half_even n d.
Proof.
  intros Hd Hn. pose proof (round_half_even_spec n d Hd). nia.
Qed.

Lemma of_int64_exact (z : Z) : 0 <= z <= 2 ^ 53 -> Float64.of_int64 z = z.
Proof.
  intros Hz. destruct (Z.eq_dec z (2 ^ 53)) as [-> | Hne]; [vm_compute; reflexivity |].
  unfold Float64.of_int64.
  assert (Hl : Z.log2 z <= 52).
  { destruct (Z.eq_dec z 0) as [-> | Hz0]; [vm_compute; discriminate |].
    assert (Z.log2 z < 53) by (apply Z.log2_lt_pow2; lia). lia. }
  replace (Z.max 0 (Z.log2 z - 52)) with 0 by lia.
  change (2 ^ 0) with 1. rewrite Z.mul_1_r.
  replace z with (z * 1) at 1 by lia. apply round_half_even_exact. lia.
Qed.

Lemma of_int64_large (z : Z) : 2 ^ 53 <= z -> 2 ^ 53 <= Float64.of_int64 z.
Proof.
  intros Hz. unfold Float64.of_int64.
  assert (Hpos : 0 < z) by lia.
  assert (Hl : 53 <= Z.log2 z) by (apply Z.log2_le_pow2; lia).
  pose proof (Z.log2_spec z Hpos) as [Hlo _].
  replace (Z.max 0 (Z.log2 z - 52)) with (Z.log2 z - 52) by lia.
  set (sh := Z.log2 z - 52) in *.
  assert (Hsh : 1 <= sh) by (unfold sh; lia).
  assert (Hpow : 2 ^ Z.log2 z = 2 ^ 52 * 2 ^ sh).
  { rewrite <- Z.pow_add_r by lia. f_equal. unfold sh. lia. }
  assert (H2 : 2 <= 2 ^ sh).
  { change 2 with (2 ^ 1) at 1. apply Z.pow_le_mono_r; lia. }
  assert (Hm : 2 ^ 52 <= Float64.round_half_even z (2 ^ sh)).
  { apply round_half_even_ge; lia. }
  nia.
Qed.

Lemma div_scaled (x y : Z) :
  0 < x -> 0 < y ->
  exists k N D,
    Float64.div x y = Float64.mk (Float64.round_half_even N D) k /\
    N = x * 2 ^ Z.max 0 (- k) /\ D = y * 2 ^ Z.max 0 k /\
    0 < D /\ 2 ^ 52 * D <= N.
Proof.
  intros Hx Hy. unfold Float64.div.
  set (k0 := Z.log2 x - Z.log2 y - 52).
  destruct (Z.ltb_spec (x * 2 ^ Z.max 0 (- k0)) (2 ^ 52 * (y * 2 ^ Z.max 0 k0)))
    as [Hlt | Hge].
  - exists (k0 - 1), (x * 2 ^ Z.max 0 (- (k0 - 1))), (y * 2 ^ Z.max 0 (k0 - 1)).
    split; [reflexivity |]. split; [reflexivity |]. split; [reflexivity |].
    pose proof (Z.log2_spec x Hx) as [Hxl _].
    pose proof (Z.log2_spec y Hy) as [_ Hyu].
    pose proof (Z.log2_nonneg x) as Hlx. pose proof (Z.log2_nonneg y) as Hly.
    set (la := Z.log2 x) in *. set (lb := Z.log2 y) in *.
    assert (Hyu' : y < 2 ^ (lb + 1)) by (replace (lb + 1) with (Z.succ lb) by lia; exact Hyu).
    split.
    { apply Z.mul_pos_pos; [lia | apply Z.pow_pos_nonneg; lia]. }
    destruct (Z.le_gt_cases (k0 - 1) 0) as [Hk | Hk].
    + replace (Z.max 0 (k0 - 1)) with 0 by lia.
      replace (Z.max 0 (- (k0 - 1))) with (lb + 53 - la) by (unfold k0; lia).
      change (2 ^ 0) with 1. rewrite Z.mul_1_r.
      assert (Hp : 2 ^ la * 2 ^ (lb + 53 - la) = 2 ^ 52 * 2 ^ (lb + 1)).
      { rewrite <- !Z.pow_add_r by (unfold k0 in Hk; lia). f_equal. lia. }
      assert (0 < 2 ^ (lb + 53 - la)) by (apply Z.pow_pos_nonneg; unfold k0 in Hk; lia).
      nia.
    + replace (Z.max 0 (k0 - 1)) with (k0 - 1) by lia.
      replace (Z.max 0 (- (k0 - 1))) with 0 by lia.
      change (2 ^ 0) with 1. rewrite Z.mul_1_r.
      assert (Hp : 2 ^ 52 * (2 ^ (lb + 1) * 2 ^ (k0 - 1)) = 2 ^ la).
      { rewrite <- !Z.pow_add_r by lia. f_equal. unfold k0. lia. }
      assert (0 < 2 ^ (k0 - 1)) by (apply Z.pow_pos_nonneg; lia).
      nia.
  - exists k0, (x * 2 ^ Z.max 0 (- k0)), (y * 2 ^ Z.max 0 k0).
    split; [reflexivity |]. split; [reflexivity |]. split; [reflexivity |].
    split; [| exact Hge].
    apply Z.mul_pos_pos; [lia | apply Z.pow_pos_nonneg; lia].
Qed.

Lemma ceil_div_bounds (A B : Z) :
  0 < B -> let K := (A + B - 1) / B in (K - 1) * B < A <= K * B.
Proof.
  intros HB K.
  pose proof (Z.div_mod (A + B - 1) B ltac:(lia)) as Hdm.
  pose proof (Z.mod_pos_bound (A + B - 1) B HB) as Hr.
  fold K in Hdm. nia.
Qed.

Lemma ceil_of_quotient (A B : Z) :
  1 <= A <= 2 ^ 53 -> 1 <= B ->
  Float64.ceil (Float64.div A B) = (A + B - 1) / B.
Proof.
  intros HA HB.
  destruct (div_scaled A B ltac:(lia) ltac:(lia)) as (k & N & D & -> & HN & HD & HDpos & Hnorm).
  pose proof (ceil_div_bounds A B ltac:(lia)) as HK. cbv zeta in HK.
  set (K := (A + B - 1) / B) in *.
  unfold Float64.ceil. cbn [Float64.mant Float64.expo].
  set (q := Float64.round_half_even N D).
  pose proof (round_half_even_spec N D HDpos) as Hq. fold q in Hq.
  destruct (Z.le_gt_cases k 0) as [Hk | Hk].
  - (* the quotient is below 2^53 *)
    replace (Z.max 0 k) with 0 in HD by lia.
    replace (Z.max 0 (- k)) with (- k) in HN by lia.
    change (2 ^ 0) with 1 in HD. rewrite Z.mul_1_r in HD. subst D.
    set (t := 2 ^ (- k)) in *.
    assert (Ht : 1 <= t) by (unfold t; pose proof (Z.pow_pos_nonneg 2 (- k)); lia).
    assert (Hup : q <= K * t).
    { apply round_half_even_le; [lia |]. subst N. nia. }
    assert (Hlo : (K - 1) * t < q).
    { destruct (Z.eq_dec A (K * B)) as [Heq | Hne].
      - assert (q = K * t) as ->; [| nia].
        unfold q. replace N with (K * t * B) by (subst N; nia).
        apply round_half_even_exact. lia.
      - assert (HAlt : A < K * B) by lia.
        destruct (Z.le_gt_cases K 1) as [HK1 | HK2].
        + assert (2 ^ 52 <= q) by (apply round_half_even_ge; lia). nia.
        + destruct (Z.lt_ge_cases B (2 * t)) as [Hbt | Hbt]; [subst N; nia |].
          exfalso.
          assert (HB2 : B = 2 * t) by (subst N; nia).
          assert (HA2 : A = 2 ^ 53) by (subst N; nia).
          assert (Hk53 : - k < 52).
          { assert (HBA : B < A) by nia.
            apply (Z.pow_lt_mono_r_iff 2); [lia | lia |]. fold t. lia. }
          assert (Hc : A = 2 ^ (52 + k) * B).
          { assert (Hp : 2 ^ (52 + k) * 2 ^ (- k) = 2 ^ 52)
              by (rewrite <- Z.pow_add_r by lia; f_equal; lia).
            fold t in Hp. rewrite HA2, HB2. nia. }
          nia. }
    destruct (Z.leb_spec 0 k) as [Hk0 | Hkneg].
    + assert (k = 0) by lia. subst k. change (2 ^ 0) with 1.
      change (2 ^ (- 0)) with 1 in t. unfold t in *. lia.
    + fold t. symmetry.
      assert (Hdiv : - q / t = - K).
      { symmetry. apply (Z.div_unique (- q) t (- K) (K * t - q)); [left; lia | lia]. }
      lia.
  - (* the quotient is 2^53 *)
    replace (Z.max 0 k) with k in HD by lia.
    replace (Z.max 0 (- k)) with 0 in HN by lia.
    change (2 ^ 0) with 1 in HN. rewrite Z.mul_1_r in HN. subst N.
    set (t := 2 ^ k) in *.
    assert (Ht : 2 <= t).
    { unfold t. change 2 with (2 ^ 1) at 1. apply Z.pow_le_mono_r; lia. }
    assert (HB1 : B = 1) by (subst D; nia).
    assert (Ht2 : t = 2) by (subst D; nia).
    assert (HA2 : A = 2 ^ 53) by (subst D; nia).
    destruct (Z.leb_spec 0 k); [| lia].
    fold t. assert (q = 2 ^ 52) as ->.
    { unfold q. subst D. rewrite HA2, HB1, Ht2. vm_compute. reflexivity. }
    unfold K. rewrite HA2, HB1, Ht2. vm_compute. reflexivity.
Qed.

Lemma ceil_div_exact (a b : Z) :
  0 <= a <= 2 ^ 53 -> 1 <= b ->
  Float64.ceil_div a b = (a + b - 1) / b.
Proof.
  intros Ha Hb. unfold Float64.ceil_div.
  destruct (Z.eqb_spec a 0) as [-> | Hne].
  - symmetry. apply Z.div_small. lia.
  - rewrite (of_int64_exact a) by lia.
    assert (HB : 1 <= Float64.of_int64 b /\
                 (a + Float64.of_int64 b - 1) / Float64.of_int64 b = (a + b - 1) / b).
    { destruct (Z.le_gt_cases b (2 ^ 53)) as [Hsmall | Hlarge].
      - rewrite of_int64_exact by lia. split; [lia | reflexivity].
      - pose proof (of_int64_large b ltac:(lia)) as HL. split; [lia |].
        assert (H1 : forall c, a <= c -> (a + c - 1) / c = 1).
        { intros c Hc. symmetry. apply (Z.div_unique (a + c - 1) c 1 (a - 1)); lia. }
        rewrite (H1 (Float64.of_int64 b)) by lia. rewrite (H1 b) by lia. reflexivity. }
    destruct HB as [HB1 HB2].
    rewrite ceil_of_quotient by lia. rewrite HB2.
    unfold Float64.to_int64.
    pose proof (ceil_div_bounds a b ltac:(lia)) as HK. cbv zeta in HK.
    destruct (Z.ltb_spec ((a + b - 1) / b) (2 ^ 63)); [reflexivity | nia].
Qed.

(** Up to 2^53 records the number of pages is the exact ceiling, and it is
    zero when there is no record. *)
Lemma CountPages_exact_up_to_2_53 (p : OffsetPagination) :
  CountRecords p <= 2 ^ 53 ->
  CountPages (normalize p)
  = (CountRecords (normalize p) + PerPage (normalize p) - 1) / PerPage (normalize p).
Proof.
  intros Hle. rewrite normalize_CountPages.
  pose proof (normalize_PerPage_pos p) as Hs.
  pose proof (normalize_CountRecords p) as Hr.
  apply ceil_div_exact; lia.
Qed.

Lemma CountPages_zero (p : OffsetPagination) :
  CountRecords (normalize p) = 0 -> CountPages (normalize p) = 0.
Proof. intros H. rewrite normalize_CountPages, H. reflexivity. Qed.

(** C6. With 2^53 + 1 records and a page size of 1, every accessor leaves
    the count of records and the page size as they are and sets the number
    of pages to 2^53, whereas the ceiling of the quotient is 2^53 + 1: the
    conversion to [float64] rounds the count of records. *)
Theorem CountPages_not_the_ceiling :
  let p := snd (PageSize huge_count) in
  CountRecords p = 9007199254740993 /\
  PerPage p = 1 /\
  CountPages p = 9007199254740992 /\
  (CountRecords p + PerPage p - 1) / PerPage p = 9007199254740993 /\
  snd (Limit huge_count) = p /\ snd (Offset huge_count) = p /\
  snd (CurrentPage huge_count) = p /\
  CountPages (SetCountRecords 9007199254740993 (NewOffsetPagination 1))
  = 9007199254740992.
Proof. vm_compute. repeat split. Qed.

(** * Further properties of the package *)

(** ** The offset pagination *)

(** The number of pages after [SetCountRecords]. *)
Lemma pages_bounds (total : Z) (p : OffsetPagination) :
  total <= 2 ^ 53 ->
  let p' := SetCountRecords total p in
  CountRecords p' = Z.max 0 total /\
  CountPages p' = (CountRecords p' + PerPage p' - 1) / PerPage p' /\
  (CountPages p' - 1) * PerPage p' < CountRecords p' <= CountPages p' * PerPage p'.
Proof.
  intros Hle p'.
  assert (Hrec : CountRecords p' = Z.max 0 total).
  { unfold p', SetCountRecords. rewrite normalize_CountRecords. destruct p; reflexivity. }
  assert (Hpages : CountPages p' = (CountRecords p' + PerPage p' - 1) / PerPage p').
  { unfold p', SetCountRecords. apply CountPages_exact_up_to_2_53. destruct p; exact Hle. }
  pose proof (normalize_PerPage_pos (with_CountRecords total p)) as Hs.
  fold (SetCountRecords total p) in Hs. fold p' in Hs.
  pose proof (ceil_div_bounds (CountRecords p') (PerPage p') ltac:(lia)) as Hb.
  cbv zeta in Hb. rewrite <- Hpages in Hb.
  split; [exact Hrec |]. split; [exact Hpages |]. exact Hb.
Qed.

(** X1. After [SetCountRecords] with a total of at most 2^53, the count of
    records is the total (zero for a negative one), the number of pages is
    the exact ceiling of the records over the page size, so the pages
    cover the records and the last page is not empty, and there is no page
    exactly when there is no record. *)
Theorem SetCountRecords_pages (total : Z) (p : OffsetPagination) :
  total <= 2 ^ 53 ->
  let p' := SetCountRecords total p in
  CountRecords p' = Z.max 0 total /\
  CountPages p' = (CountRecords p' + PerPage p' - 1) / PerPage p' /\
  (CountPages p' - 1) * PerPage p' < CountRecords p' <= CountPages p' * PerPage p' /\
  (CountPages p' = 0 <-> total <= 0).
Proof.
  intros Hle p'.
  destruct (pages_bounds total p Hle) as (Hrec & Hpages & Hb). fold p' in Hrec, Hpages, Hb.
  pose proof (normalize_PerPage_pos (with_CountRecords total p)) as Hs.
  fold (SetCountRecords total p) in Hs. fold p' in Hs.
  split; [exact Hrec |]. split; [exact Hpages |]. split; [exact Hb |].
  split; intros H.
  - rewrite H in Hb. nia.
  - assert (CountRecords p' = 0) by lia. nia.
Qed.

Lemma SetCountRecords_pages_witness :
  let p' := SetCountRecords 45 (NewOffsetPagination 20) in
  CountRecords p' = Z.max 0 45 /\
  CountPages p' = (CountRecords p' + PerPage p' - 1) / PerPage p' /\
  (CountPages p' - 1) * PerPage p' < CountRecords p' <= CountPages p' * PerPage p' /\
  (CountPages p' = 0 <-> 45 <= 0).
Proof. apply (SetCountRecords_pages 45 (NewOffsetPagination 20)). discriminate. Defined.

(** X2. [SetDefaultPerPage] returns the default that is in force, 20 for a
    non-positive argument.  It does not change a page size that is already
    positive: after [NewOffsetPagination], which sets the page size to its
    own default, a new default never reaches [Limit].  The new default is
    used only for a page size that is not positive. *)
Theorem SetDefaultPerPage_keeps_page_size (n : Z) (p : OffsetPagination) :
  fst (SetDefaultPerPage n p) = (if n <=? 0 then 20 else n) /\
  defaultPerPage (snd (SetDefaultPerPage n p)) = (if n <=? 0 then 20 else n) /\
  (1 <= PerPage p -> fst (Limit (snd (SetDefaultPerPage n p))) = PerPage p) /\
  (PerPage p <= 0 ->
   fst (Limit (snd (SetDefaultPerPage n p))) = (if n <=? 0 then 20 else n)) /\
  (forall d, fst (Limit (snd (SetDefaultPerPage n (NewOffsetPagination d))))
             = (if d <=? 0 then 20 else d)).
Proof.
  assert (H : forall q : OffsetPagination,
             defaultPerPage (normalize q)
             = (if defaultPerPage q <=? 0 then 20 else defaultPerPage q) /\
             PerPage (normalize q)
             = (if PerPage q <=? 0
                then (if defaultPerPage q <=? 0 then 20 else defaultPerPage q)
                else PerPage q)).
  { intros [pg pp cp cr d]. unfold normalize. simpl.
    repeat (case_match; simpl in * ); split; lia. }
  unfold SetDefaultPerPage, Limit; cbn [fst snd].
  assert (Hd : defaultPerPage (normalize (with_defaultPerPage n p))
               = (if n <=? 0 then 20 else n))
    by (destruct (H (with_defaultPerPage n p)) as [Hd _]; destruct p; exact Hd).
  assert (Hp : forall q, PerPage (normalize (normalize (with_defaultPerPage n q)))
                         = (if PerPage q <=? 0 then (if n <=? 0 then 20 else n)
                            else PerPage q)).
  { intros q. rewrite normalize_idempotent.
    destruct (H (with_defaultPerPage n q)) as [_ Hq]. destruct q; exact Hq. }
  split; [exact Hd |]. split; [exact Hd |].
  split; [intros Hpos; rewrite Hp; destruct (Z.leb_spec (PerPage p) 0); [lia | reflexivity] |].
  split; [intros Hneg; rewrite Hp; destruct (Z.leb_spec (PerPage p) 0); [reflexivity | lia] |].
  intros d. rewrite Hp. unfold NewOffsetPagination.
  destruct (H (mkOffsetPagination 0 0 0 0 d)) as [_ Hnew].
  cbn [PerPage defaultPerPage] in Hnew. rewrite Hnew.
  change (0 <=? 0) with true. cbn iota.
  destruct (Z.leb_spec d 0); [reflexivity |].
  destruct (Z.leb_spec d 0); [lia | reflexivity].
Qed.

Lemma SetDefaultPerPage_keeps_page_size_witness :
  fst (Limit (snd (SetDefaultPerPage 50 (mkOffsetPagination 1 20 0 0 20)))) = 20 /\
  fst (Limit (snd (SetDefaultPerPage 50 (mkOffsetPagination 1 0 0 0 20)))) = 50.
Proof.
  split.
  - destruct (SetDefaultPerPage_keeps_page_size 50 (mkOffsetPagination 1 20 0 0 20))
      as (_ & _ & H & _).
    apply H. cbn [PerPage]. lia.
  - destruct (SetDefaultPerPage_keeps_page_size 50 (mkOffsetPagination 1 0 0 0 20))
      as (_ & _ & _ & H & _).
    apply H. cbn [PerPage]. lia.
Defined.

(** The offset of a page that exists. *)
Lemma offset_exact (total : Z) (p0 : OffsetPagination) :
  total <= 2 ^ 53 ->
  let p := SetCountRecords total p0 in
  Page p <= CountPages p ->
  CountRecords p = total /\ 1 <= total /\
  fst (Offset p) = (Page p - 1) * PerPage p /\
  0 <= (Page p - 1) * PerPage p < total.
Proof.
  intros Hle p Hpage.
  destruct (pages_bounds total p0 Hle) as (Hrec & _ & Hb). fold p in Hrec, Hb.
  assert (Hn : normalize p = p) by (unfold p, SetCountRecords; apply normalize_idempotent).
  pose proof (normalize_Page_pos p) as Hp. pose proof (normalize_PerPage_pos p) as Hs.
  rewrite Hn in Hp, Hs.
  assert (Htot : CountRecords p = total) by nia.
  split; [exact Htot |]. split; [nia |].
  split; [| nia].
  unfold Offset; cbn [fst]. rewrite Hn. unfold Int64.mul, Int64.sub.
  rewrite (wrap_in_range (Page p - 1)) by (int64_bounds; nia).
  apply wrap_in_range. int64_bounds. nia.
Qed.

(** X3. For a total of at most 2^53 and a page within the number of pages,
    the offset is the exact product of the page before and the page size,
    without overflow, and it is smaller than the count of records: the
    page holds at least one record. *)
Theorem Offset_within_records (total : Z) (p0 : OffsetPagination) :
  total <= 2 ^ 53 ->
  let p := SetCountRecords total p0 in
  Page p <= CountPages p ->
  CountRecords p = total /\
  fst (Offset p) = (Page p - 1) * PerPage p /\
  0 <= fst (Offset p) < CountRecords p /\
  Int64.to_uint64 (fst (Offset p)) = fst (Offset p).
Proof.
  intros Hle p Hpage.
  destruct (offset_exact total p0 Hle Hpage) as (Htot & Hpos & Hexact & Hb).
  fold p in Htot, Hexact, Hb.
  split; [exact Htot |]. split; [exact Hexact |].
  rewrite Hexact, Htot. split; [exact Hb |].
  unfold Int64.to_uint64. apply Z.mod_small. lia.
Qed.

Lemma Offset_within_records_witness :
  let p := SetCountRecords 45 (mkOffsetPagination 3 20 0 0 20) in
  CountRecords p = 45 /\
  fst (Offset p) = (Page p - 1) * PerPage p /\
  0 <= fst (Offset p) < CountRecords p /\
  Int64.to_uint64 (fst (Offset p)) = fst (Offset p).
Proof.
  apply (Offset_within_records 45 (mkOffsetPagination 3 20 0 0 20)).
  - discriminate.
  - vm_compute. discriminate.
Defined.

(** ** The compact headers *)

Lemma allUnreserved_no_comma (x y : string) :
  url.allUnreserved (x +:+ String "," y) = false.
Proof.
  induction x as [| c x IH]; [reflexivity |].
  rewrite string_app_cons. cbn [url.allUnreserved]. rewrite IH. apply andb_false_r.
Qed.

(** A text is cut at its first comma in one way only. *)
Lemma split_first_comma (a1 a2 r1 r2 : string) :
  url.allUnreserved a1 = true -> url.allUnreserved a2 = true ->
  a1 +:+ "," +:+ r1 = a2 +:+ "," +:+ r2 -> a1 = a2 /\ r1 = r2.
Proof.
  revert a2. induction a1 as [| c a1 IH]; intros [| c' a2] H1 H2 H.
  - rewrite !string_app_nil_l in H. injection H as H. split; [reflexivity | exact H].
  - rewrite string_app_nil_l, !string_app_cons in H. injection H as Hc _. subst c'.
    cbn [url.allUnreserved] in H2. discriminate.
  - rewrite string_app_nil_l, !string_app_cons in H. injection H as Hc _. subst c.
    cbn [url.allUnreserved] in H1. discriminate.
  - rewrite !string_app_cons in H. injection H as Hc H. subst c'.
    cbn [url.allUnreserved] in H1, H2.
    apply andb_true_iff in H1 as [_ H1]. apply andb_true_iff in H2 as [_ H2].
    destruct (IH a2 H1 H2 H) as [-> ->]. split; reflexivity.
Qed.

(** A text is cut at its last comma in one way only. *)
Lemma split_last_comma (c1 c2 l1 l2 : string) :
  url.allUnreserved l1 = true -> url.allUnreserved l2 = true ->
  c1 +:+ "," +:+ l1 = c2 +:+ "," +:+ l2 -> c1 = c2 /\ l1 = l2.
Proof.
  revert c2. induction c1 as [| c c1 IH]; intros [| c' c2] H1 H2 H.
  - rewrite !string_app_nil_l in H. injection H as H. split; [reflexivity | exact H].
  - rewrite string_app_nil_l, !string_app_cons in H. injection H as _ H.
    rewrite ?string_app_nil_l in H. subst l1.
    rewrite allUnreserved_no_comma in H1. discriminate.
  - rewrite string_app_nil_l, !string_app_cons in H. injection H as _ H.
    rewrite ?string_app_nil_l in H. subst l2.
    rewrite allUnreserved_no_comma in H2. discriminate.
  - rewrite !string_app_cons in H. injection H as Hc H. subst c'.
    destruct (IH c2 H1 H2 H) as [-> ->]. split; reflexivity.
Qed.

(** X4. The compact header of the offset pagination determines the four
    numbers it lists: two paginations with the same header, or the same
    [String()], have the same page, page size, number of pages and count
    of records. *)
Theorem XPaginationHeader_injective (p q : OffsetPagination) :
  XPaginationHeader p = XPaginationHeader q \/
  OffsetPagination_String p = OffsetPagination_String q ->
  Page p = Page q /\ PerPage p = PerPage q /\
  CountPages p = CountPages q /\ CountRecords p = CountRecords q.
Proof.
  intros H.
  assert (Hh : XPaginationHeader p = XPaginationHeader q).
  { destruct H as [H | H]; [exact H |].
    unfold OffsetPagination_String in H. exact (String.app_inj _ _ _ H). }
  unfold XPaginationHeader in Hh. cbn [Join] in Hh.
  apply split_first_comma in Hh as [H1 Hh]; try apply FormatInt_unreserved.
  apply split_first_comma in Hh as [H2 Hh]; try apply FormatInt_unreserved.
  apply split_first_comma in Hh as [H3 H4]; try apply FormatInt_unreserved.
  unfold FormatInt in *.
  repeat split; apply (inj pretty); assumption.
Qed.

Lemma XPaginationHeader_injective_witness :
  Page (mkOffsetPagination 2 20 5 100 20) = Page (mkOffsetPagination 2 20 5 100 50) /\
  PerPage (mkOffsetPagination 2 20 5 100 20) = PerPage (mkOffsetPagination 2 20 5 100 50) /\
  CountPages (mkOffsetPagination 2 20 5 100 20)
  = CountPages (mkOffsetPagination 2 20 5 100 50) /\
  CountRecords (mkOffsetPagination 2 20 5 100 20)
  = CountRecords (mkOffsetPagination 2 20 5 100 50).
Proof.
  apply XPaginationHeader_injective. left. vm_compute. reflexivity.
Defined.

(** X5. The compact header of the seek pagination determines the cursor and
    the limit, although the cursor is written as it is and may itself hold
    commas: the limit is what follows the last comma. *)
Theorem Seek_XPaginationHeader_injective (p q : Seek.SeekPagination) :
  Seek_XPaginationHeader p = Seek_XPaginationHeader q ->
  Seek.Cursor p = Seek.Cursor q /\ Seek.Limit p = Seek.Limit q.
Proof.
  unfold Seek_XPaginationHeader. cbn [Join]. intros H.
  apply split_last_comma in H as [Hc Hl]; try apply FormatInt_unreserved.
  split; [exact Hc |]. unfold FormatInt in Hl. apply (inj pretty). exact Hl.
Qed.

Lemma Seek_XPaginationHeader_injective_witness :
  Seek.Cursor (Seek.mkSeekPagination 20 "a,b" 10)
  = Seek.Cursor (Seek.mkSeekPagination 20 "a,b" 30) /\
  Seek.Limit (Seek.mkSeekPagination 20 "a,b" 10)
  = Seek.Limit (Seek.mkSeekPagination 20 "a,b" 30).
Proof.
  apply Seek_XPaginationHeader_injective. vm_compute. reflexivity.
Defined.

(** ** The links and the request URL *)

(** X6. The Link header of the offset pagination does not depend on a
    [page] parameter of the request URL: it is the header of the URL
    without it.  The header is the join of two to four entries, and the
    text of every entry is a link of one of the four relations to some
    page number: it is on the request path, and its query holds the pair
    of [page] and that number, the pair of each value of each other
    parameter of the request URL, and no other pair. *)
Theorem LinkHeader_keeps_other_parameters (p : OffsetPagination) (theURL : url.URL) :
  LinkHeader p theURL
  = LinkHeader p (url.mkURL (url.Path theURL) (delete "page" (url.Query theURL))) /\
  exists entries : list string,
    LinkHeader p theURL = Join entries ", " /\
    (2 <= length entries <= 4)%nat /\
    forall e, In e entries ->
      exists (n : Z) (rel : string) (pairs : list string),
        In rel ["first"; "prev"; "next"; "last"] /\
        pageLink theURL n rel e /\
        e = linkText (url.Path theURL) pairs rel /\
        In ("page=" +:+ FormatInt n) pairs /\
        (forall (k x : string) (vs : list string),
            k <> "page" -> url.Query theURL !! k = Some vs -> In x vs ->
            In (url.QueryEscape k +:+ "=" +:+ url.QueryEscape x) pairs).
Proof.
  split.
  { unfold LinkHeader, linkHeaders, url.Values_Set, url.Query.
    cbn [url.Path url.parsedQuery]. rewrite !insert_delete_eq. reflexivity. }
  exists (linkHeaders p theURL). split; [reflexivity |]. split.
  { rewrite linkHeaders_entries.
    destruct (1 <? Page p); destruct (Int64.add (Page p) 1 <? CountPages p);
      cbn [app length]; lia. }
  intros e Hin. apply linkHeaders_In in Hin.
  assert (H : exists n rel, In rel ["first"; "prev"; "next"; "last"] /\
                            e = pageEntry theURL n rel).
  { destruct Hin as [-> | [[_ ->] | [[_ ->] | ->]]]; eexists _, _;
      (split; [| exact eq_refl]); cbn [In]; auto 6. }
  destruct H as (n & rel & Hrel & ->).
  destruct (pageEntry_pageLink theURL n rel) as (pairs & Htext & Hpage & Honly & Hother).
  exists n, rel, pairs. split; [exact Hrel |].
  split; [exists pairs; auto |]. split; [exact Htext |]. split; [exact Hpage |].
  intros k x vs Hk Hq Hx. apply Hother. exists k, x, vs.
  split; [intros [H | []]; congruence |]. auto.
Qed.

(** On [/users?q=a b&page=7], every entry of the header of page 2 of 5 is
    on [/users] and keeps the pair of [q]. *)
Lemma LinkHeader_keeps_other_parameters_witness :
  exists entries : list string,
    LinkHeader (mkOffsetPagination 2 20 5 100 20) users_url = Join entries ", " /\
    forall e, In e entries ->
      exists (rel : string) (pairs : list string),
        e = linkText "/users" pairs rel /\
        In (url.QueryEscape "q" +:+ "=" +:+ url.QueryEscape "a b") pairs.
Proof.
  destruct (LinkHeader_keeps_other_parameters (mkOffsetPagination 2 20 5 100 20) users_url)
    as (_ & entries & Hjoin & _ & H).
  exists entries. split; [exact Hjoin |]. intros e Hin.
  destruct (H e Hin) as (n & rel & pairs & _ & _ & Htext & _ & Hother).
  exists rel, pairs. split; [exact Htext |].
  apply (Hother "q" "a b" ["a b"]); [discriminate | reflexivity | left; reflexivity].
Defined.

(** ** The seek pagination *)

(** X7. A seek pagination made by [NewSeekPagination] has a positive
    default limit, and [SetLimit] and [SetCursor] keep it.  On a
    pagination with a positive default, [SetLimit] returns a positive
    limit, the given one when that is positive and the default otherwise,
    [Limit] returns the same afterwards, and neither setter touches the
    other field. *)
Theorem seek_SetLimit_positive (p : Seek.SeekPagination) (n : Z) (c : string) :
  (forall d, 0 < Seek.defaultLimit (Seek.NewSeekPagination d)) /\
  Seek.defaultLimit (snd (Seek.SetLimit n p)) = Seek.defaultLimit p /\
  Seek.defaultLimit (snd (Seek.SetCursor c p)) = Seek.defaultLimit p /\
  Seek.Cursor (snd (Seek.SetLimit n p)) = Seek.Cursor p /\
  Seek.Limit (snd (Seek.SetCursor c p)) = Seek.Limit p /\
  Seek.Cursor (snd (Seek.SetCursor c p)) = c /\
  fst (Seek.SetCursor c p) = c /\
  Seek.Limit (snd (Seek.SetLimit n p)) = fst (Seek.SetLimit n p) /\
  (0 < Seek.defaultLimit p ->
   0 < fst (Seek.SetLimit n p) /\
   fst (Seek.SetLimit n p) = (if n <=? 0 then Seek.defaultLimit p else n)).
Proof.
  destruct p as [l cur d].
  unfold Seek.SetLimit, Seek.SetCursor, Seek.normalize, Seek.NewSeekPagination,
    Seek.Limit, Seek.Cursor.
  cbn [Seek.limit Seek.cursor Seek.defaultLimit fst snd].
  split.
  { intros d'. destruct (Z.leb_spec d' 0); cbn [Seek.defaultLimit]; lia. }
  destruct (Z.leb_spec n 0); cbn [Seek.limit Seek.cursor Seek.defaultLimit fst snd];
    repeat split; try reflexivity; lia.
Qed.

Lemma seek_SetLimit_positive_witness :
  0 < fst (Seek.SetLimit 0 (Seek.NewSeekPagination 0)) /\
  fst (Seek.SetLimit 0 (Seek.NewSeekPagination 0))
  = (if 0 <=? 0 then Seek.defaultLimit (Seek.NewSeekPagination 0) else 0).
Proof.
  destruct (seek_SetLimit_positive (Seek.NewSeekPagination 0) 0 EmptyString)
    as (_ & _ & _ & _ & _ & _ & _ & _ & H).
  apply H. reflexivity.
Defined.

(** X8. The Link header of the seek pagination is the text of one link of
    the relation next on the request path.  Its query holds the pair of
    [limit] and the limit in decimal, the pair of [cursor] and the cursor
    percent-escaped, the pair of each value of each other parameter of the
    request URL, and no other pair; a [limit] or [cursor] parameter of the
    request URL is replaced. *)
Theorem Seek_LinkHeader_entry (p : Seek.SeekPagination) (theURL : url.URL) :
  (exists pairs : list string,
      Seek_LinkHeader p theURL = linkText (url.Path theURL) pairs "next" /\
      In ("limit=" +:+ FormatInt (Seek.Limit p)) pairs /\
      In ("cursor=" +:+ url.QueryEscape (Seek.Cursor p)) pairs /\
      (forall (k x : string) (vs : list string),
          k <> "limit" -> k <> "cursor" -> url.Query theURL !! k = Some vs -> In x vs ->
          In (url.QueryEscape k +:+ "=" +:+ url.QueryEscape x) pairs) /\
      (forall pair, In pair pairs ->
                    pair = "limit=" +:+ FormatInt (Seek.Limit p) \/
                    pair = "cursor=" +:+ url.QueryEscape (Seek.Cursor p) \/
                    otherPair theURL ["limit"; "cursor"] pair)) /\
  hasRel "next" (Seek_LinkHeader p theURL) /\
  Seek_LinkHeader p theURL
  = Seek_LinkHeader p (url.mkURL (url.Path theURL)
                         (delete "limit" (delete "cursor" (url.Query theURL)))).
Proof.
  pose (nextLink :=
          url.Values_Set "cursor" (Seek.Cursor p)
            (url.Values_Set "limit" (FormatInt (Seek.Limit p)) (url.Query theURL))).
  assert (Hl : nextLink !! "limit" = Some [FormatInt (Seek.Limit p)]).
  { unfold nextLink, url.Values_Set. rewrite lookup_insert_ne by discriminate.
    apply lookup_insert_eq. }
  assert (Hc : nextLink !! "cursor" = Some [Seek.Cursor p])
    by (unfold nextLink, url.Values_Set; apply lookup_insert_eq).
  assert (Hlimit : url.QueryEscape "limit" +:+ "=" +:+ url.QueryEscape (FormatInt (Seek.Limit p))
                   = "limit=" +:+ FormatInt (Seek.Limit p)).
  { rewrite (QueryEscape_unreserved _ (FormatInt_unreserved (Seek.Limit p))). reflexivity. }
  split; [| split].
  - exists (url.encodePairs nextLink). split; [reflexivity |].
    split.
    { rewrite <- Hlimit. exact (In_encodePairs nextLink "limit" _ _ Hl (or_introl eq_refl)). }
    split; [exact (In_encodePairs nextLink "cursor" (Seek.Cursor p) _ Hc (or_introl eq_refl)) |].
    split.
    + intros k x vs Hk1 Hk2 Hq Hx. apply (In_encodePairs _ k x vs); [| exact Hx].
      unfold nextLink, url.Values_Set. rewrite !lookup_insert_ne by congruence. exact Hq.
    + intros pair Hin. apply In_encodePairs_inv in Hin as (k & x & vs & Hk & Hx & ->).
      destruct (decide (k = "cursor")) as [-> | Hk1].
      { rewrite Hc in Hk. injection Hk as <-. destruct Hx as [<- | []].
        right. left. reflexivity. }
      destruct (decide (k = "limit")) as [-> | Hk2].
      { rewrite Hl in Hk. injection Hk as <-. destruct Hx as [<- | []].
        left. exact Hlimit. }
      right. right. exists k, x, vs.
      split; [intros [H | [H | []]]; congruence |].
      unfold nextLink, url.Values_Set in Hk. rewrite !lookup_insert_ne in Hk by congruence.
      auto.
  - apply linkEntry_hasRel.
  - assert (Hmap : forall (c l : string) (q : gmap string (list string)),
               url.Values_Set "cursor" c
                 (url.Values_Set "limit" l (delete "limit" (delete "cursor" q)))
               = url.Values_Set "cursor" c (url.Values_Set "limit" l q)).
    { intros c l q. unfold url.Values_Set. apply map_eq. intros k.
      destruct (decide (k = "cursor")) as [-> | Hk1];
        [rewrite !lookup_insert_eq; reflexivity |].
      rewrite !(lookup_insert_ne _ "cursor") by congruence.
      destruct (decide (k = "limit")) as [-> | Hk2];
        [rewrite !lookup_insert_eq; reflexivity |].
      rewrite !(lookup_insert_ne _ "limit") by congruence.
      rewrite !lookup_delete_ne by congruence. reflexivity. }
    unfold Seek_LinkHeader, url.Query. cbn [url.Path url.parsedQuery].
    rewrite Hmap. reflexivity.
Qed.

(** On [/users?q=a b&page=7] with the cursor [u:10,3] and the limit 20. *)
Lemma Seek_LinkHeader_entry_witness :
  exists pairs : list string,
    Seek_LinkHeader (Seek.mkSeekPagination 20 "u:10,3" 10) users_url
    = linkText "/users" pairs "next" /\
    In ("cursor=" +:+ url.QueryEscape "u:10,3") pairs /\
    In (url.QueryEscape "q" +:+ "=" +:+ url.QueryEscape "a b") pairs.
Proof.
  destruct (Seek_LinkHeader_entry (Seek.mkSeekPagination 20 "u:10,3" 10) users_url)
    as ((pairs & Htext & _ & Hcursor & Hother & _) & _).
  exists pairs. split; [exact Htext |]. split; [exact Hcursor |].
  apply (Hother "q" "a b" ["a b"]); [discriminate | discriminate | reflexivity | left; reflexivity].
Defined.

Example Seek_LinkHeader_escapes_cursor :
  Seek_LinkHeader (Seek.mkSeekPagination 20 "u:10,3" 10) users_url
  = linkText "/users" ["cursor=u%3A10%2C3"; "limit=20"; "page=7"; "q=a+b"] "next".
Proof. vm_compute. reflexivity. Qed.

(** ** The options *)

Lemma is_empty_app_cons (a : string) (c : ascii) (b : string) :
  sq.is_empty (a +:+ String c b) = false.
Proof. destruct a; reflexivity. Qed.

Lemma eqToSql_scalar (useNotOpr : bool) (key : string) (a : sq.arg) :
  expr.eqToSql useNotOpr key (expr.Scalar a)
  = Ok (scalarText useNotOpr key a, if notNull a then [a] else []).
Proof. destruct a; reflexivity. Qed.

Lemma scalarText_not_empty (useNotOpr : bool) (key : string) (a : sq.arg) :
  sq.is_empty (scalarText useNotOpr key a) = false.
Proof.
  unfold scalarText. destruct (notNull a); apply is_empty_app_cons.
Qed.

Lemma joinParts_scalars (useNotOpr : bool) (key : string) (value : list sq.arg)
      (sqlParts : list string) (args : list sq.arg) :
  expr.joinParts (map (fun item => expr.eqToSql useNotOpr key (expr.Scalar item)) value)
                 sqlParts args
  = Ok (sqlParts ++ map (scalarText useNotOpr key) value,
        args ++ List.filter notNull value).
Proof.
  revert sqlParts args. induction value as [| a rest IH]; intros sqlParts args.
  - cbn [map expr.joinParts List.filter]. rewrite !app_nil_r. reflexivity.
  - cbn [map expr.joinParts List.filter]. rewrite eqToSql_scalar, scalarText_not_empty, IH.
    rewrite <- !app_assoc. destruct (notNull a); reflexivity.
Qed.

Lemma conj_join_scalars (useNotOpr : bool) (key sep defaultExpr : string)
      (a : sq.arg) (rest : list sq.arg) :
  expr.conj_join sep defaultExpr
    (map (fun item => expr.eqToSql useNotOpr key (expr.Scalar item)) (a :: rest))
  = Ok ("(" +:+ Join (map (scalarText useNotOpr key) (a :: rest)) sep +:+ ")",
        List.filter notNull (a :: rest)).
Proof.
  unfold expr.conj_join. rewrite joinParts_scalars.
  cbn [map app rbind fst snd]. reflexivity.
Qed.

(** X9. [With] is a filtering option that never reads the store.  With no
    value it returns the statement as it is.  With one value it adds one
    WHERE part, the membership of the column in the list of that value,
    binding the value.  With several values it adds one WHERE part, the
    disjunction of the comparisons of the column with each value in the
    given order, binding the values that are not nil in that order.  No
    other clause changes. *)
Theorem With_binds_values (columnName : string) (value : list sq.arg)
        (sb : sq.SelectBuilder) (h : gmap loc OffsetPagination) :
  isFiltering (With columnName value) = true /\
  (value = [] -> Apply (With columnName value) sb h = Some (sb, h)) /\
  (forall v, value = [v] ->
             Apply (With columnName value) sb h
             = Some (sq.Where (Ok (columnName +:+ " IN (?)", [v])) sb, h)) /\
  ((2 <= length value)%nat ->
   Apply (With columnName value) sb h
   = Some (sq.Where (Ok ("(" +:+ Join (map (scalarText false columnName) value) " OR "
                         +:+ ")",
                         List.filter notNull value)) sb, h)).
Proof.
  split; [reflexivity |]. split; [intros ->; reflexivity |].
  split; [intros v ->; reflexivity |].
  intros Hlen. destruct value as [| a [| b rest]]; cbn [length] in Hlen; try lia.
  unfold With, Apply, expr.Or, expr.Eq. rewrite conj_join_scalars. reflexivity.
Qed.

Lemma With_binds_values_witness :
  Apply (With "id" [sq.ArgInt 1; sq.ArgNull; sq.ArgInt 3]) scenario_query ∅
  = Some (sq.Where (Ok ("(" +:+ Join (map (scalarText false "id")
                                          [sq.ArgInt 1; sq.ArgNull; sq.ArgInt 3]) " OR "
                        +:+ ")",
                        List.filter notNull [sq.ArgInt 1; sq.ArgNull; sq.ArgInt 3]))
                   scenario_query, ∅).
Proof.
  destruct (With_binds_values "id" [sq.ArgInt 1; sq.ArgNull; sq.ArgInt 3] scenario_query ∅)
    as (_ & _ & _ & H).
  apply H. cbn [length]. lia.
Defined.

(** X10. [Without] is the negation of [With]: no value leaves the statement
    as it is, one value adds the non-membership of the column in the list
    of that value, several values add the conjunction of the inequalities
    in the given order, binding the values that are not nil in that
    order. *)
Theorem Without_binds_values (columnName : string) (value : list sq.arg)
        (sb : sq.SelectBuilder) (h : gmap loc OffsetPagination) :
  isFiltering (Without columnName value) = true /\
  (value = [] -> Apply (Without columnName value) sb h = Some (sb, h)) /\
  (forall v, value = [v] ->
             Apply (Without columnName value) sb h
             = Some (sq.Where (Ok (columnName +:+ " NOT IN (?)", [v])) sb, h)) /\
  ((2 <= length value)%nat ->
   Apply (Without columnName value) sb h
   = Some (sq.Where (Ok ("(" +:+ Join (map (scalarText true columnName) value) " AND "
                         +:+ ")",
                         List.filter notNull value)) sb, h)).
Proof.
  split; [reflexivity |]. split; [intros ->; reflexivity |].
  split; [intros v ->; reflexivity |].
  intros Hlen. destruct value as [| a [| b rest]]; cbn [length] in Hlen; try lia.
  unfold Without, Apply, expr.And, expr.NotEq. rewrite conj_join_scalars. reflexivity.
Qed.

Lemma Without_binds_values_witness :
  Apply (Without "state" [sq.ArgStr "x"; sq.ArgStr "y"]) scenario_query ∅
  = Some (sq.Where (Ok ("(" +:+ Join (map (scalarText true "state")
                                          [sq.ArgStr "x"; sq.ArgStr "y"]) " AND "
                        +:+ ")",
                        List.filter notNull [sq.ArgStr "x"; sq.ArgStr "y"]))
                   scenario_query, ∅).
Proof.
  destruct (Without_binds_values "state" [sq.ArgStr "x"; sq.ArgStr "y"] scenario_query ∅)
    as (_ & _ & _ & H).
  apply H. cbn [length]. lia.
Defined.

(** X11. Sorting options are applied in the order given: each one adds
    its column and direction as one more ORDER BY term after those the
    statement has, whatever the direction says, and nothing else of the
    statement or of the store changes. *)
Theorem sorting_options_in_order (specs : list (string * string))
        (query : sq.SelectBuilder) (h : gmap loc OffsetPagination) :
  let opts := map (fun cd => WithSortBy (fst cd) (snd cd)) specs in
  Forall (fun o => IsSortingOption o = true) opts /\
  applyAll opts query h
  = Some (sq.mkSelect (sq.sel_placeholder query) (sq.sel_columns query)
            (sq.sel_from query) (sq.sel_joins query) (sq.sel_where query)
            (sq.sel_group_by query)
            (sq.sel_order_by query
             ++ map (fun cd => sq.newPart (fst cd +:+ " " +:+ snd cd) []) specs)
            (sq.sel_limit query) (sq.sel_offset query), h).
Proof.
  intros opts. split.
  - unfold opts. apply List.Forall_forall. intros o Ho.
    apply in_map_iff in Ho as (cd & <- & _). reflexivity.
  - unfold opts, WithSortBy. clear opts. revert query.
    induction specs as [| [c d] rest IH]; intros query.
    + cbn [map applyAll]. rewrite app_nil_r. destruct query; reflexivity.
    + cbn [map applyAll Apply mbind option_bind fst snd].
      rewrite IH. unfold sq.OrderBy.
      cbn [sq.sel_placeholder sq.sel_columns sq.sel_from sq.sel_joins sq.sel_where
           sq.sel_group_by sq.sel_order_by sq.sel_limit sq.sel_offset].
      rewrite <- app_assoc. reflexivity.
Qed.

(** X12. Applying a paging option whose pagination object is allocated
    normalizes that object in place and sets LIMIT to its page size and
    OFFSET to its offset, whatever LIMIT and OFFSET the statement had; the
    other clauses stay.  The LIMIT is at least 1 for a page size within
    [int64].  Applying the option again changes neither the statement nor
    the store. *)
Theorem paging_option_sets_limit_offset
        (page : loc) (p : OffsetPagination) (sb : sq.SelectBuilder)
        (h : gmap loc OffsetPagination) :
  h !! page = Some p ->
  exists (sb' : sq.SelectBuilder) (h' : gmap loc OffsetPagination),
    Apply (withOffsetPaginationOption page) sb h = Some (sb', h') /\
    h' = <[page := normalize p]> h /\
    sq.sel_limit sb' = FormatInt (Int64.to_uint64 (PerPage (normalize p))) /\
    sq.sel_offset sb' = FormatInt (Int64.to_uint64 (fst (Offset p))) /\
    (sq.sel_columns sb' = sq.sel_columns sb /\ sq.sel_from sb' = sq.sel_from sb /\
     sq.sel_joins sb' = sq.sel_joins sb /\ sq.sel_where sb' = sq.sel_where sb /\
     sq.sel_group_by sb' = sq.sel_group_by sb /\
     sq.sel_order_by sb' = sq.sel_order_by sb) /\
    (forall n m,
        fst <$> Apply (withOffsetPaginationOption page) (sq.Limit n (sq.Offset m sb)) h
        = Some sb') /\
    Apply (withOffsetPaginationOption page) sb' h' = Some (sb', h') /\
    (Int64.in_range (PerPage p) -> Int64.in_range (defaultPerPage p) ->
     1 <= PerPage (normalize p) /\
     sq.sel_limit sb' = FormatInt (PerPage (normalize p))).
Proof.
  intros Hp. eexists _, _.
  split; [apply (Apply_paging_normalized page p sb h Hp) |].
  split; [reflexivity |]. split; [reflexivity |]. split; [reflexivity |].
  split; [repeat split |].
  split.
  { intros n m. rewrite (Apply_paging_normalized page p _ h Hp). reflexivity. }
  split.
  { rewrite (Apply_paging_normalized page (normalize p))
      by apply lookup_insert_eq.
    unfold Limit, Offset. cbn [fst snd]. rewrite !normalize_idempotent.
    rewrite insert_insert_eq. reflexivity. }
  intros Hs Hd. pose proof (normalize_PerPage_pos p) as Hpos. split; [exact Hpos |].
  cbn [sq.sel_limit sq.Offset sq.Limit Limit fst]. f_equal.
  unfold Int64.to_uint64. apply Z.mod_small.
  assert (PerPage (normalize p) <= Int64.max_int); [| int64_bounds; lia].
  destruct p as [pg pp cp cr d]. cbn [PerPage defaultPerPage] in Hs, Hd.
  unfold normalize; simpl. int64_bounds.
  repeat (case_match; simpl in * ); lia.
Qed.

Lemma paging_option_sets_limit_offset_witness :
  exists (sb' : sq.SelectBuilder) (h' : gmap loc OffsetPagination),
    Apply (withOffsetPaginationOption 1%positive) scenario_query scenarioC_store
    = Some (sb', h') /\
    sq.sel_limit sb' = "20" /\ sq.sel_offset sb' = "180".
Proof.
  destruct (paging_option_sets_limit_offset 1%positive (mkOffsetPagination 10 20 0 0 20)
              scenario_query scenarioC_store)
    as (sb' & h' & Ha & _ & Hl & Ho & _); [vm_compute; reflexivity |].
  exists sb', h'. split; [exact Ha |]. rewrite Hl, Ho. split; vm_compute; reflexivity.
Defined.

(** ** More on the run of [List] *)

Lemma PerPage_SetCountRecords_range (total : Z) (p0 : OffsetPagination) :
  Int64.in_range (PerPage p0) -> Int64.in_range (defaultPerPage p0) ->
  1 <= PerPage (SetCountRecords total p0) <= Int64.max_int.
Proof.
  intros Hs Hd. unfold SetCountRecords.
  pose proof (normalize_PerPage_pos (with_CountRecords total p0)) as Hpos.
  split; [exact Hpos |].
  destruct p0 as [pg pp cp cr d]. cbn [PerPage defaultPerPage] in Hs, Hd.
  unfold normalize; simpl. int64_bounds.
  repeat (case_match; simpl in * ); lia.
Qed.

(** The second half of [List], for a page that exists. *)
Lemma List_data_phase {T : Type} (db : Engine T) (vs : T) (query : sq.SelectBuilder)
      (opts : list ListOption) (h : gmap loc OffsetPagination)
      (sqlstr : string) (args : list sq.arg) (total : Z) :
  (length (List.filter IsPaginationOption opts) <= 1)%nat ->
  options_allocated opts h ->
  sq.ToSql (toCountQuery (fold_left applyPure (List.filter isFiltering opts) query))
  = Ok (sqlstr, args) ->
  QueryRowScan db sqlstr args = Ok total ->
  total <= 2 ^ 53 ->
  exists (page : loc) (p0 : OffsetPagination) (h1 : gmap loc OffsetPagination),
    h1 !! page = Some p0 /\
    (forall l v, h !! l = Some v -> h1 !! l = Some v) /\
    (forall pg, In (withOffsetPaginationOption pg) opts -> pg = page /\ h1 = h) /\
    ((forall pg, ~ In (withOffsetPaginationOption pg) opts) ->
     p0 = NewOffsetPagination 20 /\ h !! page = None) /\
    let filtered := fold_left applyPure (List.filter isFiltering opts) query in
    let countQuery := toCountQuery filtered in
    let p := SetCountRecords total p0 in
    let dataQuery :=
      sq.Offset ((Page p - 1) * PerPage p)
        (sq.Limit (PerPage p)
           (fold_left applyPure (List.filter IsSortingOption opts) filtered)) in
    (Page p <= CountPages p ->
     Int64.in_range (PerPage p0) -> Int64.in_range (defaultPerPage p0) ->
     List db vs query opts h
     = match sq.ToSql dataQuery with
       | Err e =>
           Some (mkListResult vs None (Some ("assemble query: " +:+ e)) (<[page := p]> h1)
                   [EvAssemble countQuery; EvQueryRow sqlstr args; EvAssemble dataQuery])
       | Ok (sqlstr', args') =>
           Some (mkListResult (fst (Select db vs sqlstr' args')) (Some page)
                   (snd (Select db vs sqlstr' args')) (<[page := p]> h1)
                   [EvAssemble countQuery; EvQueryRow sqlstr args;
                    EvAssemble dataQuery; EvSelect sqlstr' args'])
       end).
Proof.
  intros Hlen Halloc Hsql Hcount Hle.
  destruct (List_run db vs query opts h Hlen Halloc)
    as (page & p0 & h1 & Hp0 & Hsub & Hone & Hnone & Hrun).
  exists page, p0, h1. repeat (split; [assumption |]).
  intros filtered countQuery p dataQuery Hpage Hs Hd.
  destruct (offset_exact total p0 Hle Hpage) as (Htot & Hpos & Hexact & Hb).
  fold p in Htot, Hexact, Hb.
  pose proof (PerPage_SetCountRecords_range total p0 Hs Hd) as Hrange. fold p in Hrange.
  assert (Hn : normalize p = p) by (unfold p, SetCountRecords; apply normalize_idempotent).
  subst filtered countQuery dataQuery.
  rewrite Hrun. cbv zeta. rewrite Hsql, Hcount. fold p.
  replace ((CountRecords p =? 0) || (CountPages p <? Page p)) with false
    by (symmetry; apply orb_false_iff; split; lia).
  rewrite Hexact. unfold Limit; cbn [fst]. rewrite Hn.
  unfold Int64.to_uint64. rewrite !Z.mod_small by (int64_bounds; lia). reflexivity.
Qed.

(** X13. If the count statement cannot be assembled, or the count query
    fails, [List] returns the destination it was given, a nil pagination
    and the error prefixed with the phase; the data statement is neither
    assembled nor run, and after a failed assembly no query is run at all.
    Every pagination object of the store is as before. *)
Theorem List_count_failure
        {T : Type} (db : Engine T) (vs : T) (query : sq.SelectBuilder)
        (opts : list ListOption) (h : gmap loc OffsetPagination) :
  (length (List.filter IsPaginationOption opts) <= 1)%nat ->
  options_allocated opts h ->
  let countQuery :=
    toCountQuery (fold_left applyPure (List.filter isFiltering opts) query) in
  exists h1 : gmap loc OffsetPagination,
    (forall l v, h !! l = Some v -> h1 !! l = Some v) /\
    (forall e, sq.ToSql countQuery = Err e ->
               List db vs query opts h
               = Some (mkListResult vs None (Some ("assemble count query: " +:+ e)) h1
                         [EvAssemble countQuery])) /\
    (forall sqlstr args e,
        sq.ToSql countQuery = Ok (sqlstr, args) ->
        QueryRowScan db sqlstr args = Err e ->
        List db vs query opts h
        = Some (mkListResult vs None (Some ("count records: " +:+ e)) h1
                  [EvAssemble countQuery; EvQueryRow sqlstr args])).
Proof.
  intros Hlen Halloc countQuery.
  destruct (List_run db vs query opts h Hlen Halloc)
    as (page & p0 & h1 & Hp0 & Hsub & Hone & Hnone & Hrun).
  exists h1. split; [exact Hsub |]. cbv zeta in Hrun. fold countQuery in Hrun. split.
  - intros e He. rewrite Hrun, He. reflexivity.
  - intros sqlstr args e Hsql He. rewrite Hrun, Hsql, He. reflexivity.
Qed.

Lemma no_options_allocated (h : gmap loc OffsetPagination) : options_allocated [] h.
Proof. intros page []. Defined.

Lemma List_count_failure_witness :
  exists h1 : gmap loc OffsetPagination,
    List failing_engine [] scenario_query [] ∅
    = Some (mkListResult [] None (Some ("count records: " +:+ "connection refused")) h1
              [EvAssemble (toCountQuery scenario_query);
               EvQueryRow "SELECT COUNT(*) FROM users" []]).
Proof.
  destruct (List_count_failure failing_engine [] scenario_query [] ∅)
    as (h1 & _ & _ & H); [cbn [List.filter length]; lia | apply no_options_allocated |].
  exists h1. apply H; vm_compute; reflexivity.
Defined.

(** X14. When the count is at least 1 and at most 2^53 and the page exists,
    [List] runs exactly two queries.  The data statement is the filtered
    statement with the sorting options applied in order, then LIMIT set to
    the page size and OFFSET to the product of the page before and the
    page size, which is smaller than the count; the count statement has
    none of the sorting and paging.  [List] returns what the row mapper
    left in the destination, the pagination and the mapper's error; if the
    data statement cannot be assembled it returns a nil pagination and
    runs no second query. *)
Theorem List_data_query
        {T : Type} (db : Engine T) (vs : T) (query : sq.SelectBuilder)
        (opts : list ListOption) (h : gmap loc OffsetPagination)
        (sqlstr : string) (args : list sq.arg) (total : Z) :
  (length (List.filter IsPaginationOption opts) <= 1)%nat ->
  options_allocated opts h ->
  sq.ToSql (toCountQuery (fold_left applyPure (List.filter isFiltering opts) query))
  = Ok (sqlstr, args) ->
  QueryRowScan db sqlstr args = Ok total ->
  total <= 2 ^ 53 ->
  exists (page : loc) (p0 : OffsetPagination) (h1 : gmap loc OffsetPagination),
    h1 !! page = Some p0 /\
    (forall pg, In (withOffsetPaginationOption pg) opts -> pg = page /\ h1 = h) /\
    let filtered := fold_left applyPure (List.filter isFiltering opts) query in
    let countQuery := toCountQuery filtered in
    let p := SetCountRecords total p0 in
    let dataQuery :=
      sq.Offset ((Page p - 1) * PerPage p)
        (sq.Limit (PerPage p)
           (fold_left applyPure (List.filter IsSortingOption opts) filtered)) in
    (Page p <= CountPages p ->
     Int64.in_range (PerPage p0) -> Int64.in_range (defaultPerPage p0) ->
     0 <= (Page p - 1) * PerPage p < total /\
     (forall e, sq.ToSql dataQuery = Err e ->
                List db vs query opts h
                = Some (mkListResult vs None (Some ("assemble query: " +:+ e))
                          (<[page := p]> h1)
                          [EvAssemble countQuery; EvQueryRow sqlstr args;
                           EvAssemble dataQuery])) /\
     (forall sqlstr' args',
         sq.ToSql dataQuery = Ok (sqlstr', args') ->
         List db vs query opts h
         = Some (mkListResult (fst (Select db vs sqlstr' args')) (Some page)
                   (snd (Select db vs sqlstr' args')) (<[page := p]> h1)
                   [EvAssemble countQuery; EvQueryRow sqlstr args;
                    EvAssemble dataQuery; EvSelect sqlstr' args']))).
Proof.
  intros Hlen Halloc Hsql Hcount Hle.
  destruct (List_data_phase db vs query opts h sqlstr args total Hlen Halloc Hsql Hcount Hle)
    as (page & p0 & h1 & Hp0 & _ & Hone & _ & Hrun).
  exists page, p0, h1. split; [exact Hp0 |]. split; [exact Hone |].
  intros filtered countQuery p dataQuery Hpage Hs Hd.
  destruct (offset_exact total p0 Hle Hpage) as (_ & _ & _ & Hb). fold p in Hb.
  split; [exact Hb |].
  specialize (Hrun Hpage Hs Hd). cbv zeta in Hrun.
  fold filtered in Hrun. fold countQuery in Hrun. fold p in Hrun. fold dataQuery in Hrun.
  split.
  - intros e He. rewrite Hrun, He. reflexivity.
  - intros sqlstr' args' Hok. rewrite Hrun, Hok. reflexivity.
Qed.

Lemma page2_allocated :
  options_allocated [withOffsetPaginationOption 1%positive; WithSortBy "id" "desc"]
                    page2_store.
Proof.
  intros page [Hin | [Hin | []]]; [| discriminate]. inversion Hin; subst.
  exists (mkOffsetPagination 2 20 0 0 20). reflexivity.
Defined.

Lemma List_data_query_witness :
  List scenario_engine [] scenario_query
       [withOffsetPaginationOption 1%positive; WithSortBy "id" "desc"] page2_store
  = Some (mkListResult [1; 2; 3] (Some 1%positive) None
            {[ 1%positive := mkOffsetPagination 2 20 3 45 20 ]}
            [EvAssemble (toCountQuery scenario_query);
             EvQueryRow "SELECT COUNT(*) FROM users" [];
             EvAssemble (sq.Offset 20 (sq.Limit 20 (sq.OrderBy "id desc" scenario_query)));
             EvSelect "SELECT * FROM users ORDER BY id desc LIMIT 20 OFFSET 20" []]).
Proof.
  destruct (List_data_query scenario_engine [] scenario_query
              [withOffsetPaginationOption 1%positive; WithSortBy "id" "desc"] page2_store
              "SELECT COUNT(*) FROM users" [] 45)
    as (page & p0 & h1 & Hp0 & Hone & H).
  - cbn [List.filter IsPaginationOption WithSortBy length]. lia.
  - exact page2_allocated.
  - vm_compute. reflexivity.
  - reflexivity.
  - discriminate.
  - destruct (Hone 1%positive) as [Hpg Hh]; [left; reflexivity |]. subst page h1.
    assert (p0 = mkOffsetPagination 2 20 0 0 20) as ->.
    { unfold page2_store in Hp0. rewrite lookup_singleton_eq in Hp0. congruence. }
    cbv zeta in H. destruct H as (_ & _ & H).
    + vm_compute. discriminate.
    + int64_bounds. cbn [PerPage]. lia.
    + int64_bounds. cbn [defaultPerPage]. lia.
    + rewrite (H "SELECT * FROM users ORDER BY id desc LIMIT 20 OFFSET 20" []).
      * vm_compute. reflexivity.
      * vm_compute. reflexivity.
Defined.

Lemma SetCountRecords_default (total : Z) :
  1 <= total <= 2 ^ 53 ->
  SetCountRecords total (NewOffsetPagination 20)
  = mkOffsetPagination 1 20 ((total + 19) / 20) total 20.
Proof.
  intros Ht. change (NewOffsetPagination 20) with (mkOffsetPagination 1 20 0 0 20).
  unfold SetCountRecords, with_CountRecords.
  cbn [Page PerPage CountPages CountRecords defaultPerPage].
  set (q := mkOffsetPagination 1 20 0 total 20).
  pose proof (normalize_CountPages q) as Hc.
  pose proof (normalize_CountRecords q) as Hr. cbn [CountRecords q] in Hr.
  assert (Hf : Page (normalize q) = 1 /\ PerPage (normalize q) = 20 /\
               defaultPerPage (normalize q) = 20).
  { unfold q, normalize. simpl. repeat (case_match; simpl in * ); repeat split; lia. }
  destruct Hf as (Hpg & Hpp & Hd).
  rewrite Hr, Hpp in Hc. rewrite ceil_div_exact in Hc by lia.
  destruct (normalize q) as [pg pp cp cr d]. cbn in Hc, Hr, Hpg, Hpp, Hd. subst.
  f_equal; [f_equal; lia | lia].
Qed.

(** X15. Without a paging option, [List] pages by 20 from page 1: for a
    count between 1 and 2^53 the data statement has LIMIT 20 and OFFSET 0,
    and the pagination returned is a new object with page 1, page size 20,
    the count and its number of pages. *)
Theorem List_default_page
        {T : Type} (db : Engine T) (vs : T) (query : sq.SelectBuilder)
        (opts : list ListOption) (h : gmap loc OffsetPagination)
        (sqlstr : string) (args : list sq.arg) (total : Z) :
  (forall pg, ~ In (withOffsetPaginationOption pg) opts) ->
  sq.ToSql (toCountQuery (fold_left applyPure (List.filter isFiltering opts) query))
  = Ok (sqlstr, args) ->
  QueryRowScan db sqlstr args = Ok total ->
  1 <= total <= 2 ^ 53 ->
  let filtered := fold_left applyPure (List.filter isFiltering opts) query in
  let dataQuery :=
    sq.Offset 0 (sq.Limit 20
                   (fold_left applyPure (List.filter IsSortingOption opts) filtered)) in
  exists (page : loc) (h1 : gmap loc OffsetPagination),
    h !! page = None /\
    h1 !! page = Some (mkOffsetPagination 1 20 ((total + 19) / 20) total 20) /\
    (forall l v, h !! l = Some v -> h1 !! l = Some v) /\
    (forall sqlstr' args',
        sq.ToSql dataQuery = Ok (sqlstr', args') ->
        List db vs query opts h
        = Some (mkListResult (fst (Select db vs sqlstr' args')) (Some page)
                  (snd (Select db vs sqlstr' args')) h1
                  [EvAssemble (toCountQuery filtered); EvQueryRow sqlstr args;
                   EvAssemble dataQuery; EvSelect sqlstr' args'])).
Proof.
  intros Hno Hsql Hcount Ht filtered dataQuery.
  assert (Hf : List.filter IsPaginationOption opts = []).
  { destruct (List.filter IsPaginationOption opts) as [| o rest] eqn:Hf; [reflexivity |].
    assert (Hin : In o (List.filter IsPaginationOption opts)) by (rewrite Hf; left; reflexivity).
    apply List.filter_In in Hin as [Hin Hpag].
    destruct o; try discriminate. destruct (Hno _ Hin). }
  assert (Hlen : (length (List.filter IsPaginationOption opts) <= 1)%nat)
    by (rewrite Hf; cbn [length]; lia).
  assert (Halloc : options_allocated opts h) by (intros pg Hin; destruct (Hno pg Hin)).
  destruct (List_data_phase db vs query opts h sqlstr args total Hlen Halloc Hsql Hcount
              ltac:(lia))
    as (page & p0 & h1 & Hp0 & Hsub & _ & Hnone & Hrun).
  destruct (Hnone Hno) as [-> Hfresh].
  cbv zeta in Hrun. rewrite (SetCountRecords_default total Ht) in Hrun.
  cbn [Page PerPage CountPages] in Hrun.
  exists page, (<[page := mkOffsetPagination 1 20 ((total + 19) / 20) total 20]> h1).
  split; [exact Hfresh |]. split; [apply lookup_insert_eq |].
  split.
  - intros l v Hl. assert (l <> page) by congruence.
    rewrite lookup_insert_ne by congruence. apply Hsub. exact Hl.
  - intros sqlstr' args' Hok.
    rewrite Hrun.
    + change ((1 - 1) * 20) with 0. fold filtered. fold dataQuery. rewrite Hok. reflexivity.
    + assert (20 <= total + 19) by lia.
      pose proof (Z.div_le_mono 20 (total + 19) 20 ltac:(lia) ltac:(lia)) as Hd.
      change (20 / 20) with 1 in Hd. exact Hd.
    + vm_compute. split; discriminate.
    + vm_compute. split; discriminate.
Qed.

Lemma List_default_page_witness :
  exists (page : loc) (h1 : gmap loc OffsetPagination),
    h1 !! page = Some (mkOffsetPagination 1 20 ((45 + 19) / 20) 45 20) /\
    List scenario_engine [] scenario_query [WithSortBy "id" "desc"] ∅
    = Some (mkListResult [1; 2; 3] (Some page) None h1
              [EvAssemble (toCountQuery scenario_query);
               EvQueryRow "SELECT COUNT(*) FROM users" [];
               EvAssemble (sq.Offset 0 (sq.Limit 20 (sq.OrderBy "id desc" scenario_query)));
               EvSelect "SELECT * FROM users ORDER BY id desc LIMIT 20 OFFSET 0" []]).
Proof.
  destruct (List_default_page scenario_engine [] scenario_query [WithSortBy "id" "desc"] ∅
              "SELECT COUNT(*) FROM users" [] 45)
    as (page & h1 & _ & Hp & _ & H).
  - intros pg [Hin | []]. discriminate.
  - vm_compute. reflexivity.
  - reflexivity.
  - split; discriminate.
  - exists page, h1. split; [exact Hp |].
    rewrite (H "SELECT * FROM users ORDER BY id desc LIMIT 20 OFFSET 0" []);
      [reflexivity | vm_compute; reflexivity].
Defined.


(** [List] returns, and writes to the store at most the pagination object
    it works on. *)
Lemma List_result_store {T : Type} (db : Engine T) (vs : T) (query : sq.SelectBuilder)
      (opts : list ListOption) (h : gmap loc OffsetPagination) :
  (length (List.filter IsPaginationOption opts) <= 1)%nat ->
  options_allocated opts h ->
  exists (r : ListResult T) (page : loc) (h1 : gmap loc OffsetPagination),
    List db vs query opts h = Some r /\
    (forall l v, h !! l = Some v -> h1 !! l = Some v) /\
    (forall pg, In (withOffsetPaginationOption pg) opts -> pg = page) /\
    (In (withOffsetPaginationOption page) opts \/ h !! page = None) /\
    (res_store r = h1 \/ exists p, res_store r = <[page := p]> h1) /\
    (res_pagination r = None \/ res_pagination r = Some page).
Proof.
  intros Hlen Halloc.
  destruct (List_run db vs query opts h Hlen Halloc)
    as (page & p0 & h1 & Hp0 & Hsub & Hone & Hnone & Hrun).
  assert (Hpage : In (withOffsetPaginationOption page) opts \/ h !! page = None).
  { destruct (List.filter IsPaginationOption opts) as [| o rest] eqn:Hf.
    - right. apply Hnone. intros pg Hin.
      assert (In (withOffsetPaginationOption pg) (List.filter IsPaginationOption opts)) as Hin'
          by (apply List.filter_In; split; [assumption | reflexivity]).
      rewrite Hf in Hin'. destruct Hin'.
    - left. assert (Hin : In o (List.filter IsPaginationOption opts))
        by (rewrite Hf; left; reflexivity).
      apply List.filter_In in Hin as [Hin Hpag]. destruct o as [f | c d | pg]; try discriminate.
      destruct (Hone pg Hin) as [-> _]. exact Hin. }
  assert (Hone1 : forall pg, In (withOffsetPaginationOption pg) opts -> pg = page)
    by (intros pg Hin; apply (Hone pg Hin)).
  cbv zeta in Hrun.
  destruct (sq.ToSql (toCountQuery _)) as [[sqlstr args] | e];
    [| eexists _, page, h1; split; [exact Hrun |]; cbn [res_store res_pagination];
       split; [exact Hsub |]; split; [exact Hone1 |]; split; [exact Hpage |]; split; left; reflexivity].
  destruct (QueryRowScan db sqlstr args) as [total | e];
    [| eexists _, page, h1; split; [exact Hrun |]; cbn [res_store res_pagination];
       split; [exact Hsub |]; split; [exact Hone1 |]; split; [exact Hpage |]; split; left; reflexivity].
  destruct ((CountRecords _ =? 0) || (CountPages _ <? Page _)).
  { eexists _, page, h1. split; [exact Hrun |]. cbn [res_store res_pagination].
    split; [exact Hsub |]. split; [exact Hone1 |]. split; [exact Hpage |].
    split; [right; eexists; reflexivity | right; reflexivity]. }
  destruct (sq.ToSql _) as [[sqlstr' args'] | e].
  - eexists _, page, h1. split; [exact Hrun |]. cbn [res_store res_pagination].
    split; [exact Hsub |]. split; [exact Hone1 |]. split; [exact Hpage |].
    split; [right; eexists; reflexivity | right; reflexivity].
  - eexists _, page, h1. split; [exact Hrun |]. cbn [res_store res_pagination].
    split; [exact Hsub |]. split; [exact Hone1 |]. split; [exact Hpage |].
    split; [right; eexists; reflexivity | left; reflexivity].
Qed.

(** X16. Whatever a call of [List] with at most one paging option returns,
    it has left every pagination object of the store that is not the one
    of a paging option of the call as it was, and the pagination it
    returns, if any, is the object of the paging option or a new
    object. *)
Theorem List_store_frame
        {T : Type} (db : Engine T) (vs : T) (query : sq.SelectBuilder)
        (opts : list ListOption) (h : gmap loc OffsetPagination) (r : ListResult T) :
  (length (List.filter IsPaginationOption opts) <= 1)%nat ->
  options_allocated opts h ->
  List db vs query opts h = Some r ->
  (forall l v, h !! l = Some v -> ~ In (withOffsetPaginationOption l) opts ->
               res_store r !! l = Some v) /\
  (forall l, res_pagination r = Some l ->
             In (withOffsetPaginationOption l) opts \/ h !! l = None).
Proof.
  intros Hlen Halloc Hrun.
  destruct (List_result_store db vs query opts h Hlen Halloc)
    as (r' & page & h1 & Hr & Hsub & _ & Hpage & Hstore & Hpag).
  rewrite Hrun in Hr. injection Hr as <-. split.
  - intros l v Hl Hnot.
    assert (Hne : page <> l) by (intros ->; destruct Hpage; [tauto | congruence]).
    destruct Hstore as [-> | [p ->]]; [auto |].
    rewrite lookup_insert_ne by exact Hne. auto.
  - intros l Hl. destruct Hpag as [Hn | Hs]; [congruence |].
    rewrite Hs in Hl. injection Hl as <-. exact Hpage.
Qed.

(** A call for page 2 of 45 records, with a second pagination object in
    the store: the second object is as before. *)
Lemma List_store_frame_witness :
  exists r : ListResult (list Z),
    List scenario_engine [] scenario_query
         [WithSortBy "id" "desc"; withOffsetPaginationOption 1%positive]
         (<[7%positive := mkOffsetPagination 3 5 0 0 5]> page2_store) = Some r /\
    res_store r !! 7%positive = Some (mkOffsetPagination 3 5 0 0 5).
Proof.
  assert (Hlen : (length (List.filter IsPaginationOption
                            [WithSortBy "id" "desc"; withOffsetPaginationOption 1%positive])
                  <= 1)%nat)
    by (cbn [List.filter IsPaginationOption WithSortBy length]; lia).
  assert (Halloc : options_allocated
                     [WithSortBy "id" "desc"; withOffsetPaginationOption 1%positive]
                     (<[7%positive := mkOffsetPagination 3 5 0 0 5]> page2_store)).
  { intros pg [Hin | [Hin | []]]; [discriminate |]. injection Hin as <-.
    exists (mkOffsetPagination 2 20 0 0 20). reflexivity. }
  destruct (List_result_store scenario_engine [] scenario_query _ _ Hlen Halloc)
    as (r & _ & _ & Hr & _).
  exists r. split; [exact Hr |].
  destruct (List_store_frame scenario_engine [] scenario_query _ _ r Hlen Halloc Hr)
    as [Hframe _].
  apply Hframe; [reflexivity |]. intros [Hin | [Hin | []]]; discriminate.
Defined.

(** X17. [List] never writes to the pagination object that was given to
    [WithOffsetPagination]: the counts go to the copy held by the option,
    which is the pagination that [List] returns.  The caller's object is
    after the call what it was when the option was built, and it is not
    the object returned. *)
Theorem List_keeps_callers_pagination
        {T : Type} (db : Engine T) (vs : T) (query : sq.SelectBuilder)
        (others : list ListOption) (pagination : loc) (o : ListOption)
        (h0 h : gmap loc OffsetPagination) :
  WithOffsetPagination pagination h0 = Some (o, h) ->
  Forall (fun x => IsPaginationOption x = false) others ->
  exists r : ListResult T,
    List db vs query (o :: others) h = Some r /\
    is_Some (h0 !! pagination) /\
    res_store r !! pagination = h0 !! pagination /\
    res_pagination r <> Some pagination.
Proof.
  unfold WithOffsetPagination, alloc. intros Hw Hothers.
  destruct (h0 !! pagination) as [p |] eqn:Hp; [| discriminate].
  cbn [mbind option_bind] in Hw. injection Hw as <- <-.
  set (l := fresh (dom h0)).
  assert (Hl : h0 !! l = None) by (apply not_elem_of_dom, is_fresh).
  assert (Hne : l <> pagination) by congruence.
  assert (Hnotin : forall pg, In (withOffsetPaginationOption pg) others -> False).
  { intros pg Hin. rewrite List.Forall_forall in Hothers.
    specialize (Hothers _ Hin). discriminate. }
  assert (Hfilter : List.filter IsPaginationOption others = []).
  { destruct (List.filter IsPaginationOption others) as [| x rest] eqn:Hf; [reflexivity |].
    assert (Hin : In x (List.filter IsPaginationOption others)) by (rewrite Hf; left; reflexivity).
    apply List.filter_In in Hin as [Hin Hpag]. rewrite List.Forall_forall in Hothers.
    rewrite (Hothers _ Hin) in Hpag. discriminate. }
  destruct (List_result_store db vs query (withOffsetPaginationOption l :: others)
              (<[l := p]> h0))
    as (r & page & h1 & Hr & Hsub & Hone & _ & Hstore & Hpag).
  - cbn [List.filter IsPaginationOption]. rewrite Hfilter. cbn [length]. lia.
  - intros pg [Hin | Hin]; [| destruct (Hnotin pg Hin)].
    injection Hin as <-. rewrite lookup_insert_eq. eexists; reflexivity.
  - assert (Hpl : l = page) by (apply Hone; left; reflexivity). subst page.
    exists r. split; [exact Hr |]. split; [eexists; reflexivity |]. split.
    + assert (Hh1 : h1 !! pagination = Some p)
        by (apply Hsub; rewrite lookup_insert_ne by exact Hne; exact Hp).
      destruct Hstore as [-> | [p' ->]]; [exact Hh1 |].
      rewrite lookup_insert_ne by exact Hne. exact Hh1.
    + destruct Hpag as [-> | ->]; congruence.
Qed.

Lemma List_keeps_callers_pagination_witness :
  exists r : ListResult (list Z),
    List scenario_engine [] scenario_query
         [withOffsetPaginationOption 2%positive; WithSortBy "id" "desc"]
         (<[2%positive := mkOffsetPagination 2 20 0 0 20]> page2_store) = Some r /\
    is_Some (page2_store !! 1%positive) /\
    res_store r !! 1%positive = page2_store !! 1%positive /\
    res_pagination r <> Some 1%positive.
Proof.
  apply (List_keeps_callers_pagination scenario_engine [] scenario_query
           [WithSortBy "id" "desc"] 1%positive).
  - vm_compute. reflexivity.
  - repeat constructor.
Defined.


Lemma sorting_keeps_columns (opts : list ListOption) (query : sq.SelectBuilder) :
  sq.sel_columns (fold_left applyPure (List.filter IsSortingOption opts) query)
  = sq.sel_columns query.
Proof.
  revert query. induction opts as [| o rest IH]; intros query; [reflexivity |].
  destruct o as [f | c d | pg]; cbn [List.filter IsSortingOption fold_left]; try apply IH.
  rewrite IH. reflexivity.
Qed.

(** X18. For a statement that projects no column after the filtering
    options, [List] still counts, because the count statement brings its
    own projection, and then fails when it assembles the data statement:
    for a count up to 2^53 and a page that exists it returns the
    destination it was given, a nil pagination and the assembly error,
    after one query. *)
Theorem List_without_projection
        {T : Type} (db : Engine T) (vs : T) (query : sq.SelectBuilder)
        (opts : list ListOption) (h : gmap loc OffsetPagination)
        (sqlstr : string) (args : list sq.arg) (total : Z) :
  (length (List.filter IsPaginationOption opts) <= 1)%nat ->
  options_allocated opts h ->
  sq.sel_columns (fold_left applyPure (List.filter isFiltering opts) query) = [] ->
  sq.ToSql (toCountQuery (fold_left applyPure (List.filter isFiltering opts) query))
  = Ok (sqlstr, args) ->
  QueryRowScan db sqlstr args = Ok total ->
  total <= 2 ^ 53 ->
  exists (page : loc) (p0 : OffsetPagination) (h1 : gmap loc OffsetPagination),
    h1 !! page = Some p0 /\
    (forall pg, In (withOffsetPaginationOption pg) opts -> pg = page /\ h1 = h) /\
    let p := SetCountRecords total p0 in
    (Page p <= CountPages p ->
     Int64.in_range (PerPage p0) -> Int64.in_range (defaultPerPage p0) ->
     exists dataQuery : sq.SelectBuilder,
       List db vs query opts h
       = Some (mkListResult vs None
                 (Some ("assemble query: "
                        +:+ "select statements must have at least one result column"))
                 (<[page := p]> h1)
                 [EvAssemble
                    (toCountQuery
                       (fold_left applyPure (List.filter isFiltering opts) query));
                  EvQueryRow sqlstr args; EvAssemble dataQuery])).
Proof.
  intros Hlen Halloc Hcols Hsql Hcount Hle.
  destruct (List_data_phase db vs query opts h sqlstr args total Hlen Halloc Hsql Hcount Hle)
    as (page & p0 & h1 & Hp0 & _ & Hone & _ & Hrun).
  exists page, p0, h1. split; [exact Hp0 |]. split; [exact Hone |].
  intros p Hpage Hs Hd. specialize (Hrun Hpage Hs Hd). cbv zeta in Hrun.
  eexists. rewrite Hrun.
  match goal with |- context [sq.ToSql ?q] =>
    assert (Herr : sq.ToSql q
                   = Err "select statements must have at least one result column")
  end.
  { unfold sq.ToSql, sq.toSqlRaw, sq.Offset, sq.Limit. cbn [sq.sel_columns].
    rewrite sorting_keeps_columns, Hcols. reflexivity. }
  rewrite Herr. reflexivity.
Qed.

Lemma List_without_projection_witness :
  exists dataQuery : sq.SelectBuilder,
    List scenario_engine [] no_column_query [withOffsetPaginationOption 1%positive]
         page2_store
    = Some (mkListResult [] None
              (Some ("assemble query: "
                     +:+ "select statements must have at least one result column"))
              (<[1%positive := SetCountRecords 45 (mkOffsetPagination 2 20 0 0 20)]>
                 page2_store)
              [EvAssemble (toCountQuery no_column_query);
               EvQueryRow "SELECT COUNT(*) FROM users" []; EvAssemble dataQuery]).
Proof.
  destruct (List_without_projection scenario_engine [] no_column_query
              [withOffsetPaginationOption 1%positive] page2_store
              "SELECT COUNT(*) FROM users" [] 45)
    as (page & p0 & h1 & Hp0 & Hone & H).
  - cbn [List.filter IsPaginationOption length]. lia.
  - intros pg [Hin | []]. inversion Hin; subst.
    exists (mkOffsetPagination 2 20 0 0 20). reflexivity.
  - reflexivity.
  - vm_compute. reflexivity.
  - reflexivity.
  - discriminate.
  - destruct (Hone 1%positive) as [Hpg Hh]; [left; reflexivity |]. subst page h1.
    assert (p0 = mkOffsetPagination 2 20 0 0 20) as ->.
    { unfold page2_store in Hp0. rewrite lookup_singleton_eq in Hp0. congruence. }
    cbv zeta in H. apply H.
    + vm_compute. discriminate.
    + int64_bounds. cbn [PerPage]. lia.
    + int64_bounds. cbn [defaultPerPage]. lia.
Defined.

(** ** Single rows and writes *)

(** X19. [Get] returns a nil value and the assembly error, whatever the
    row mapper would do, when the statement cannot be assembled.
    Otherwise it returns the value the mapper filled, with no error after
    a successful scan and with the mapper's error after a failed one,
    except that a not-found error gives a nil value and no error.  So the
    error is nil exactly when the scan succeeded or found no row. *)
Theorem Get_not_found_is_nil
        {T : Type} (notFound : string -> bool)
        (scanGet : T -> string -> list sq.arg -> T * option string)
        (v : T) (query : sq.SelectBuilder) :
  (forall e, sq.ToSql query = Err e ->
             forall scanGet' : T -> string -> list sq.arg -> T * option string,
               Get notFound scanGet' v query = (None, Some e)) /\
  (forall sqlstr args,
      sq.ToSql query = Ok (sqlstr, args) ->
      let v' := fst (scanGet v sqlstr args) in
      let err := snd (scanGet v sqlstr args) in
      (err = None -> Get notFound scanGet v query = (Some v', None)) /\
      (forall e, err = Some e -> notFound e = true ->
                 Get notFound scanGet v query = (None, None)) /\
      (forall e, err = Some e -> notFound e = false ->
                 Get notFound scanGet v query = (Some v', Some e)) /\
      (snd (Get notFound scanGet v query) = None <->
       err = None \/ exists e, err = Some e /\ notFound e = true)).
Proof.
  split.
  - intros e He scanGet'. unfold Get. rewrite He. reflexivity.
  - intros sqlstr args Hok v' err. unfold Get. rewrite Hok. subst v' err.
    destruct (scanGet v sqlstr args) as [v' [e |]]; cbn [fst snd PassNotFoundError].
    + split; [discriminate |]. split; [intros e' [= <-] ->; reflexivity |].
      split; [intros e' [= <-] ->; reflexivity |].
      destruct (notFound e) eqn:Hnf; cbn [snd]; split.
      * intros _. right. exists e. split; [reflexivity | exact Hnf].
      * reflexivity.
      * discriminate.
      * intros [H | (e' & [= <-] & H)]; congruence.
    + split; [reflexivity |]. split; [discriminate |]. split; [discriminate |].
      cbn [snd]. split; [left; reflexivity | reflexivity].
Qed.

(** The row mapper's error wraps the engine's: it is not found. *)
Lemma Get_not_found_is_nil_witness :
  Get isNoRows (fun (v : Z) _ _ => (v, Some "scanning one: no rows in result set"))
      0 scenario_query
  = (None, None).
Proof.
  destruct (Get_not_found_is_nil isNoRows
              (fun (v : Z) _ _ => (v, Some "scanning one: no rows in result set"))
              0 scenario_query)
    as [_ H].
  destruct (H "SELECT * FROM users" []) as (_ & Hnf & _); [vm_compute; reflexivity |].
  apply (Hnf "scanning one: no rows in result set"); reflexivity.
Defined.

(** X20. [Exec] returns the number of affected rows and no error exactly
    when the statement assembles and the engine runs it.  When the
    statement cannot be assembled it returns 0 and the assembly error
    whatever the engine would do, and when the engine fails it returns 0
    and the engine's error. *)
Theorem Exec_reports_rows_or_error
        (dbExec : string -> list sq.arg -> result Z) (query : sq.Sqlizer) :
  (forall e, query = Err e ->
             forall dbExec' : string -> list sq.arg -> result Z,
               Exec dbExec' query = (0, Some e)) /\
  (forall sqlstr args e,
      query = Ok (sqlstr, args) -> dbExec sqlstr args = Err e ->
      Exec dbExec query = (0, Some e)) /\
  (forall sqlstr args rows,
      query = Ok (sqlstr, args) -> dbExec sqlstr args = Ok rows ->
      Exec dbExec query = (rows, None)) /\
  (snd (Exec dbExec query) = None <->
   exists sqlstr args rows, query = Ok (sqlstr, args) /\ dbExec sqlstr args = Ok rows) /\
  (snd (Exec dbExec query) <> None -> fst (Exec dbExec query) = 0).
Proof.
  split; [intros e -> dbExec'; reflexivity |].
  split; [intros sqlstr args e -> He; unfold Exec; rewrite He; reflexivity |].
  split; [intros sqlstr args rows -> Hok; unfold Exec; rewrite Hok; reflexivity |].
  unfold Exec. destruct query as [[sqlstr args] | e].
  - destruct (dbExec sqlstr args) as [rows | e] eqn:Hdb; cbn [fst snd].
    + split; [| congruence]. split; [intros _; exists sqlstr, args, rows; auto | reflexivity].
    + split; [| reflexivity]. split; [discriminate |].
      intros (s' & a' & r' & [= <- <-] & H). congruence.
  - cbn [fst snd]. split; [| reflexivity]. split; [discriminate |].
    intros (s' & a' & r' & H & _). discriminate.
Qed.

Lemma Exec_reports_rows_or_error_witness :
  Exec (fun _ _ => Ok 3) (sq.newPart "DELETE FROM users WHERE id = ?" [sq.ArgInt 1])
  = (3, None).
Proof.
  destruct (Exec_reports_rows_or_error (fun _ _ => Ok 3)
              (sq.newPart "DELETE FROM users WHERE id = ?" [sq.ArgInt 1]))
    as (_ & _ & H & _).
  apply (H "DELETE FROM users WHERE id = ?" [sq.ArgInt 1]); reflexivity.
Defined.

(** X21. [ReturnsNilWhenNotFound] and [PassNotFoundError] are the same
    function.  The error they return is the one given unless that is a
    not-found error, which becomes no error with a nil value; the value is
    kept in every other case; and applying them to their own result
    changes nothing. *)
Theorem PassNotFoundError_spec
        {T : Type} (notFound : string -> bool) (v : option T) (err : option string) :
  ReturnsNilWhenNotFound notFound v err = PassNotFoundError notFound v err /\
  (snd (PassNotFoundError notFound v err) = None <->
   err = None \/ exists e, err = Some e /\ notFound e = true) /\
  (forall e, snd (PassNotFoundError notFound v err) = Some e ->
             err = Some e /\ notFound e = false /\
             fst (PassNotFoundError notFound v err) = v) /\
  (err = None -> PassNotFoundError notFound v err = (v, None)) /\
  PassNotFoundError notFound (fst (PassNotFoundError notFound v err))
                    (snd (PassNotFoundError notFound v err))
  = PassNotFoundError notFound v err.
Proof.
  split; [reflexivity |]. unfold PassNotFoundError.
  destruct err as [e |]; [destruct (notFound e) eqn:Hnf |]; cbn [fst snd].
  - split; [split; [intros _; right; exists e; auto | reflexivity] |].
    split; [discriminate |]. split; [discriminate | reflexivity].
  - split; [split; [discriminate | intros [H | (e' & [= <-] & H)]; congruence] |].
    split; [intros e' [= <-]; auto |]. split; [discriminate |]. rewrite Hnf. reflexivity.
  - split; [split; [auto | reflexivity] |].
    split; [discriminate |]. split; reflexivity.
Qed.

Lemma PassNotFoundError_spec_witness :
  snd (PassNotFoundError isNoRows (Some 7) (Some "scanning one: no rows in result set"))
  = None /\
  PassNotFoundError isNoRows (Some 7) None = (Some 7, None).
Proof.
  split.
  - destruct (PassNotFoundError_spec isNoRows (Some 7)
                (Some "scanning one: no rows in result set")) as (_ & [_ H] & _).
    apply H. right. eexists. split; reflexivity.
  - destruct (PassNotFoundError_spec isNoRows (Some 7) None) as (_ & _ & _ & H & _).
    apply H. reflexivity.
Defined.

Example With_renders :
  sq.ToSql (applyPure (applyPure (applyPure scenario_query
                                   (With "role" [sq.ArgStr "admin"]))
                         (With "id" [sq.ArgInt 1; sq.ArgInt 2; sq.ArgInt 3]))
              (Without "state" [sq.ArgStr "x"; sq.ArgStr "y"]))
  = Ok ("SELECT * FROM users WHERE role IN ($1) AND (id = $2 OR id = $3 OR id = $4) AND (state <> $5 AND state <> $6)",
        [sq.ArgStr "admin"; sq.ArgInt 1; sq.ArgInt 2; sq.ArgInt 3; sq.ArgStr "x"; sq.ArgStr "y"]).
Proof. vm_compute. reflexivity. Qed.
